(** * scripts/benchmark_rag.py: the RAG token-savings benchmark

    A shallow embedding of the benchmark script and the properties of its
    specification.

    Conventions of the embedding:
    - a Python [str] is the list of its code points ([N]);
    - a Python [int] is a [Z]; [len] results are [nat] injected into [Z];
    - a Python [float] is an IEEE-754 binary64 value, [spec_float] at
      precision 53 and maximal exponent 1024;
    - every [print] call is one constructor of [output], carrying the values
      interpolated in its format string; the functions return what they
      printed next to their value, in program order;
    - the outside world (the search subprocess, the file system, the
      environment variable, the temporary files) is an explicit argument. *)

From Stdlib Require Import String Ascii DecimalString.
From Stdlib Require Import ZArith NArith List Bool Lia.
From Stdlib Require Import Permutation Floats.SpecFloat.
Import ListNotations.

(** ** Python strings *)

Module PyStr.

Definition char := N.
Definition str := list char.

(** [py "..."] is the Python literal with the same ASCII characters. *)
Definition py (lit : string) : str :=
  map N_of_ascii (list_ascii_of_string lit).

Arguments py lit%_string.

(** The newline written [\n] in the source. *)
Definition nl : str := [10%N].

(** [str.isspace] of one code point, as CPython's [Py_UNICODE_ISSPACE]:
    the ASCII table below 128 and the Unicode White_Space / bidirectional
    class WS, B, S code points above. *)
Definition isspace (c : char) : bool :=
  ((9 <=? c) && (c <=? 13) || (28 <=? c) && (c <=? 32)
   || (c =? 133) || (c =? 160) || (c =? 5760)
   || (8192 <=? c) && (c <=? 8202)
   || (c =? 8232) || (c =? 8233) || (c =? 8239) || (c =? 8287)
   || (c =? 12288))%N.

(** [text.split()]: the scan keeps the run being read in [cur], reversed,
    and emits it at the next whitespace or at the end of the text. *)
Fixpoint split_from (cur : str) (text : str) : list str :=
  match text with
  | [] => match cur with [] => [] | _ :: _ => [rev cur] end
  | c :: rest =>
      if isspace c then
        match cur with
        | [] => split_from [] rest
        | _ :: _ => rev cur :: split_from [] rest
        end
      else split_from (c :: cur) rest
  end.

Definition split (text : str) : list str := split_from [] text.

(** [s.startswith(p)] *)
Fixpoint startswith (p s : str) : bool :=
  match p, s with
  | [], _ => true
  | _ :: _, [] => false
  | a :: p', b :: s' => (a =? b)%N && startswith p' s'
  end.

(** [sub in s] *)
Fixpoint contains (sub s : str) : bool :=
  startswith sub s ||
  match s with
  | [] => false
  | _ :: s' => contains sub s'
  end.

(** [s.find(sub)], counting from position [i] of the whole string. *)
Fixpoint find_from (i : Z) (sub s : str) : Z :=
  if startswith sub s then i
  else match s with
       | [] => (-1)%Z
       | _ :: s' => find_from (i + 1)%Z sub s'
       end.

Definition find (sub s : str) : Z := find_from 0%Z sub s.

(** [s.split(sep)] for a separator of one character. *)
Fixpoint split_char_from (cur : str) (sep : char) (s : str) : list str :=
  match s with
  | [] => [rev cur]
  | c :: rest =>
      if (c =? sep)%N then rev cur :: split_char_from [] sep rest
      else split_char_from (c :: cur) sep rest
  end.

Definition split_char (sep : char) (s : str) : list str :=
  split_char_from [] sep s.

(** [sep.join(parts)], used to state properties of [split_char]. *)
Fixpoint join (sep : str) (parts : list str) : str :=
  match parts with
  | [] => []
  | [p] => p
  | p :: ps => p ++ sep ++ join sep ps
  end.

Fixpoint lstrip (s : str) : str :=
  match s with
  | [] => []
  | c :: rest => if isspace c then lstrip rest else s
  end.

Fixpoint rstrip (s : str) : str :=
  match s with
  | [] => []
  | c :: rest =>
      match rstrip rest with
      | [] => if isspace c then [] else [c]
      | r => c :: r
      end
  end.

(** [s.strip()] *)
Definition strip (s : str) : str := rstrip (lstrip s).

(** [s[i:]] for [i >= 0]. *)
Definition slice_from (i : Z) (s : str) : str := skipn (Z.to_nat i) s.

(** [str.lower()] on one code point, as far as the script can see it: the
    lowered text is only ever tested against ASCII words.  ASCII capitals
    are lowered; beyond ASCII only the two code points whose lowercase
    contains an ASCII letter are lowered (U+0130, which lowers to "i"
    followed by U+0307, and the Kelvin sign U+212A, which lowers to "k").
    Every other code point above 127 lowers in Python to code points above
    127 and is kept here as it is: [lower] is not the lowered text of Python
    on such letters, and each test of an ASCII word against it has the
    result it has in Python. *)
Definition lower_char (c : char) : str :=
  if ((65 <=? c) && (c <=? 90))%N then [(c + 32)%N]
  else if (c =? 304)%N then [105%N; 775%N]
  else if (c =? 8490)%N then [107%N]
  else [c].

Definition lower (s : str) : str := flat_map lower_char s.

(** [a == b] on strings. *)
Fixpoint str_eqb (a b : str) : bool :=
  match a, b with
  | [], [] => true
  | x :: a', y :: b' => (x =? y)%N && str_eqb a' b'
  | _, _ => false
  end.

(** [str(n)] for a non-negative integer. *)
Definition str_of_nat (n : nat) : str :=
  py (DecimalString.NilZero.string_of_uint (Nat.to_uint n)).

End PyStr.
Import PyStr.

(** ** The cost metric *)

(** [count_tokens(text)]: [len(text.split())]. *)
Definition count_tokens (text : str) : Z := Z.of_nat (length (split text)).

(** The specification's wording of the metric: the number of maximal runs of
    non-whitespace characters, counted at the position where each run
    starts (a non-whitespace character at the start of the text or right
    after a whitespace character). *)
Fixpoint run_starts (after_space : bool) (text : str) : nat :=
  match text with
  | [] => 0
  | c :: rest =>
      (if after_space && negb (isspace c) then 1 else 0)
      + run_starts (isspace c) rest
  end.

Definition maximal_runs (text : str) : nat := run_starts true text.


(** ** Exceptions, floats and printed lines *)

(** The instances of Python's [Exception] that the script can meet, each
    with the text [str(e)] gives. *)
Inductive exception :=
  | ZeroDivisionError
  | OSError (msg : str)
  | UnicodeDecodeError (msg : str)
  | ValueError (msg : str).

(** A computation that returns or raises. *)
Inductive result (A : Type) :=
  | Ok (a : A)
  | Raise (e : exception).

Arguments Ok {A} a.
Arguments Raise {A} e.

Module Float.

Definition float := spec_float.

Definition prec := 53%Z.
Definition emax := 1024%Z.

(** The operand of an integer division as an unrounded float value. *)
Definition of_int_exact (z : Z) : float :=
  match z with
  | Z0 => S754_zero false
  | Zpos p => S754_finite false p 0
  | Zneg p => S754_finite true p 0
  end.

(** [float(z)]: the integer rounded to binary64. *)
Definition of_int (z : Z) : float := binary_normalize prec emax z 0 false.

(** [float('inf')] *)
Definition inf : float := S754_infinity false.

(** [a / b] on two Python integers: [ZeroDivisionError] for a zero divisor,
    else the exact quotient rounded once to binary64.  (CPython raises
    [OverflowError] for a quotient beyond the binary64 range, which needs an
    operand of at least 2^1023; the operands here are list lengths and their
    differences, and that case is left as the infinity [SFdiv] returns.) *)
Definition int_truediv (a b : Z) : result float :=
  if (b =? 0)%Z then Raise ZeroDivisionError
  else Ok (SFdiv prec emax (of_int_exact a) (of_int_exact b)).

(** [x * n] for a float [x] and an integer [n]. *)
Definition mul_int (x : float) (n : Z) : float :=
  SFmul prec emax x (of_int n).

End Float.
Import Float.

(** One constructor per [print] call of the script, with the values its
    format string interpolates. *)
Inductive output :=
  | ErrorRunningIndexer (stderr : str)
  | ErrorRunningSearch (e : exception)
  | WarningFileNotFound (file_path : str)
  | ErrorReading (file_path : str) (e : exception)
  | RagSearching (query : str)
  | NoChunksFound
  | RagFound (n : Z)
  | RagContextTokens (token_count : Z)
  | NaiveIncluding
  | NaiveIncluded (n : Z)
  | TotalFileSize (total_chars : Z)
  | NaiveContextTokens (token_count : Z)
  | Usage
  | UsageExample
  | Rule
  | Title
  | QueryLine (query : str)
  | Blank
  | ComparisonResults
  | RagApproachTokens (rag_tokens : Z)
  | NaiveApproachTokens (naive_tokens : Z)
  | TokenSavings (savings : Z) (savings_percent : float)
  | RagSaves (savings : Z)
  | RagEfficiency (efficiency : float)
  | RagUsesMore (more : Z)
  | ComparisonIncomplete
  | NoteTokenization
  | NoteTiktoken
  | NoteSimilar
  | RagContextSavedTo (name : str)
  | NaiveContextSavedTo (name : str).

(** ** The outside world *)

(** What [subprocess.run([...], capture_output=True, text=True)] gives. *)
Record CompletedProcess := {
  returncode : Z;
  stdout : str;
  stderr : str
}.

Inductive run_result :=
  | Completed (p : CompletedProcess)
  | RunRaised (e : exception).

(** A candidate path under the project root: absent ([exists()] is false),
    readable as UTF-8 text, or failing with an exception in [exists], [open]
    or [read]. *)
Inductive file_state :=
  | NotFound
  | Readable (content : str)
  | Unreadable (e : exception).

(** Writing one context to a [NamedTemporaryFile]: saved under [name];
    failing when the file is created or written, before its name is
    printed; or failing when the [with] block closes it, after the print. *)
Inductive temp_result :=
  | TempSaved (name : str)
  | TempFailed (e : exception)
  | TempCloseFailed (name : str) (e : exception).

Record world := {
  cargo_run_indexer : str -> Z -> run_result;
  read_file : str -> file_state;
  getenv_SAVE_CONTEXTS : option str;
  write_temp : str -> str -> temp_result
}.

(** ** run_indexer_search *)

Record chunk := {
  chunk_name : str;
  chunk_file : str;
  chunk_code : str
}.

Definition quote : char := 39%N.

(** The test of line 53: the stripped line starts with "1." ... "5.". *)
Definition starts_with_rank (line : str) : bool :=
  startswith (py "1.") (strip line) || startswith (py "2.") (strip line)
  || startswith (py "3.") (strip line) || startswith (py "4.") (strip line)
  || startswith (py "5.") (strip line).

(** The parser keeps [chunks] and [current_chunk]. *)
Definition parser_state : Type := list chunk * option chunk.

(** The body of the loop over the lines (lines 53 to 69). *)
Definition parse_line (st : parser_state) (line : str) : parser_state :=
  let '(chunks, current_chunk) := st in
  if starts_with_rank line then
    if contains (py "Score:") line then
      let parts := split_char quote line in
      if (2 <=? length parts)%nat then
        (chunks,
         Some {| chunk_name := nth 1 parts [];
                 chunk_file := if contains (py "in ") line
                               then last parts [] else py "unknown";
                 chunk_code := [] |})
      else st
    else st
  else if startswith (py "Lines") (strip line) then
    match current_chunk with
    | Some c =>
        let code_start := (find (py ": ") line + 2)%Z in
        if (code_start >? 1)%Z then
          (chunks ++ [{| chunk_name := chunk_name c;
                         chunk_file := chunk_file c;
                         chunk_code := slice_from code_start line |}],
           None)
        else st
    | None => st
    end
  else st.

Definition parse_lines (lines : list str) : list chunk :=
  fst (fold_left parse_line lines ([], None)).

(** Lines 48 to 71: the chunks parsed from the standard output. *)
Definition parse_search_output (out : str) : list chunk :=
  parse_lines (split_char 10%N out).

(** [run_indexer_search(query, top_k)]: the chunks and what was printed. *)
Definition run_indexer_search (w : world) (query : str) (top_k : Z)
  : list chunk * list output :=
  match cargo_run_indexer w query top_k with
  | Completed p =>
      if negb (returncode p =? 0)%Z then ([], [ErrorRunningIndexer (stderr p)])
      else (parse_search_output (stdout p), [])
  | RunRaised e => ([], [ErrorRunningSearch e])
  end.

(** ** get_file_contents *)

Record file_info := {
  info_file : str;
  info_content : str;
  info_size : Z
}.

(** One turn of the loop of lines 84 to 98. *)
Definition read_candidate (w : world) (acc : list file_info * list output)
  (file_path : str) : list file_info * list output :=
  let '(contents, printed) := acc in
  match read_file w file_path with
  | Readable content =>
      (contents ++ [{| info_file := file_path;
                       info_content := content;
                       info_size := Z.of_nat (length content) |}],
       printed)
  | NotFound => (contents, printed ++ [WarningFileNotFound file_path])
  | Unreadable e => (contents, printed ++ [ErrorReading file_path e])
  end.

Definition get_file_contents (w : world) (file_paths : list str)
  : list file_info * list output :=
  fold_left (read_candidate w) file_paths ([], []).

(** ** benchmark_rag_approach *)

(** One turn of the loop of lines 117 to 119, [i] counting from 1. *)
Definition add_chunk (acc : str * nat) (c : chunk) : str * nat :=
  let '(rag_context, i) := acc in
  (rag_context
   ++ (py "--- Chunk " ++ str_of_nat i ++ py ": " ++ chunk_name c
       ++ py " from " ++ chunk_file c ++ py " ---" ++ nl)
   ++ (chunk_code c ++ nl ++ nl),
   S i).

Definition rag_context_of (query : str) (chunks : list chunk) : str :=
  fst (fold_left add_chunk chunks
         (py "Query: " ++ query ++ nl ++ nl ++ py "Relevant code chunks:"
          ++ nl ++ nl, 1%nat)).

Definition benchmark_rag_approach (w : world) (query : str)
  : (Z * str) * list output :=
  let '(chunks, printed) := run_indexer_search w query 5 in
  match chunks with
  | [] => ((0%Z, []), [RagSearching query] ++ printed ++ [NoChunksFound])
  | _ :: _ =>
      let rag_context := rag_context_of query chunks in
      let token_count := count_tokens rag_context in
      ((token_count, rag_context),
       [RagSearching query] ++ printed
       ++ [RagFound (Z.of_nat (length chunks)); RagContextTokens token_count])
  end.

(** ** benchmark_naive_approach *)

(** [any(word in query_lower for word in words)] *)
Definition any_word_in (words : list str) (query_lower : str) : bool :=
  existsb (fun word => contains word query_lower) words.

(** The keyword groups of lines 139 to 146, in the order they are tested,
    each with the files it adds. *)
Definition cli_words := [py "cli"; py "command"; py "argument"; py "clap"].
Definition cli_files := [py "src/main.rs"; py "src/bin/indexer.rs"].
Definition voice_words := [py "voice"; py "audio"; py "record"].
Definition voice_files := [py "src/voice/mod.rs"; py "src/voice/capture.rs"].
Definition llm_words := [py "llm"; py "gemini"; py "api"].
Definition llm_files := [py "src/llm/gemini_client.rs"].
Definition index_words := [py "index"; py "search"; py "chunk"; py "embed"].
Definition index_files :=
  [py "src/index/chunker.rs"; py "src/index/embedder.rs";
   py "src/index/vector_store.rs"].
Definition default_files := [py "src/main.rs"; py "Cargo.toml"; py "README.md"].

(** [list(dict.fromkeys(l))]: the keys in the order of their first
    insertion; [keys] holds the dictionary built so far. *)
Fixpoint fromkeys (keys : list str) (l : list str) : list str :=
  match l with
  | [] => keys
  | k :: rest =>
      if existsb (str_eqb k) keys then fromkeys keys rest
      else fromkeys (keys ++ [k]) rest
  end.

Definition dict_fromkeys (l : list str) : list str := fromkeys [] l.

(** Lines 136 to 153: the candidate files of a query. *)
Definition relevant_files (query : str) : list str :=
  let relevant_files := [] in
  let query_lower := lower query in
  let relevant_files :=
    if any_word_in cli_words query_lower
    then relevant_files ++ cli_files else relevant_files in
  let relevant_files :=
    if any_word_in voice_words query_lower
    then relevant_files ++ voice_files else relevant_files in
  let relevant_files :=
    if any_word_in llm_words query_lower
    then relevant_files ++ llm_files else relevant_files in
  let relevant_files :=
    if any_word_in index_words query_lower
    then relevant_files ++ index_files else relevant_files in
  let relevant_files :=
    match relevant_files with
    | [] => default_files
    | _ :: _ => relevant_files
    end in
  dict_fromkeys relevant_files.

(** One turn of the loop of lines 162 to 165. *)
Definition add_file (acc : str * Z) (file_info : file_info) : str * Z :=
  let '(naive_context, total_chars) := acc in
  (naive_context
   ++ (py "--- File: " ++ info_file file_info ++ py " ---" ++ nl)
   ++ (info_content file_info ++ nl ++ nl),
   (total_chars + info_size file_info)%Z).

Definition naive_header (query : str) : str :=
  py "Query: " ++ query ++ nl ++ nl ++ py "Entire file contents:" ++ nl ++ nl.

Definition benchmark_naive_approach (w : world) (query : str)
  : (Z * str) * list output :=
  let '(file_contents, printed) := get_file_contents w (relevant_files query) in
  let '(naive_context, total_chars) :=
    fold_left add_file file_contents (naive_header query, 0%Z) in
  let token_count := count_tokens naive_context in
  ((token_count, naive_context),
   [NaiveIncluding] ++ printed
   ++ [NaiveIncluded (Z.of_nat (length file_contents));
       TotalFileSize total_chars;
       NaiveContextTokens token_count]).

(** ** main *)

(** Lines 202 to 217: the lines printed by the comparison, and the
    exception that interrupted them, if any. *)
Definition compare_results (rag_tokens naive_tokens : Z)
  : list output * option exception :=
  if (rag_tokens >? 0)%Z && (naive_tokens >? 0)%Z then
    let savings := (naive_tokens - rag_tokens)%Z in
    match int_truediv savings naive_tokens with
    | Raise e => ([], Some e)
    | Ok quotient =>
        let savings_percent := mul_int quotient 100 in
        let printed :=
          [RagApproachTokens rag_tokens;
           NaiveApproachTokens naive_tokens;
           TokenSavings savings savings_percent] in
        if (savings >? 0)%Z then
          match (if (rag_tokens >? 0)%Z
                 then int_truediv naive_tokens rag_tokens else Ok inf) with
          | Raise e => (printed ++ [RagSaves savings], Some e)
          | Ok efficiency =>
              (printed ++ [RagSaves savings; RagEfficiency efficiency], None)
          end
        else (printed ++ [RagUsesMore (Z.abs savings)], None)
    end
  else ([ComparisonIncomplete], None).

(** How the process ends: [main] returns, [sys.exit(code)] is called, or an
    exception reaches the top level. *)
Inductive termination :=
  | Finished
  | SysExit (code : Z)
  | Uncaught (e : exception).

(** The exit status of the interpreter for the three ways a run of the
    model ends: 0 when [main] returns, the code passed to [sys.exit], 1 for
    an uncaught [Exception]. *)
Definition exit_status (t : termination) : Z :=
  match t with
  | Finished => 0
  | SysExit code => code
  | Uncaught _ => 1
  end.

(** Line 225: [os.getenv('SAVE_CONTEXTS', '').lower() in ['true', '1', 'yes']]. *)
Definition save_contexts (w : world) : bool :=
  let value := match getenv_SAVE_CONTEXTS w with
               | Some v => v
               | None => []
               end in
  existsb (str_eqb (lower value)) [py "true"; py "1"; py "yes"].

(** Lines 226 to 233. *)
Definition save_context_files (w : world) (rag_context naive_context : str)
  : termination * list output :=
  match write_temp w (py "_rag_context.txt") rag_context with
  | TempFailed e => (Uncaught e, [])
  | TempCloseFailed name e => (Uncaught e, [RagContextSavedTo name])
  | TempSaved rag_name =>
      match write_temp w (py "_naive_context.txt") naive_context with
      | TempFailed e => (Uncaught e, [RagContextSavedTo rag_name])
      | TempCloseFailed name e =>
          (Uncaught e, [RagContextSavedTo rag_name; NaiveContextSavedTo name])
      | TempSaved name =>
          (Finished, [RagContextSavedTo rag_name; NaiveContextSavedTo name])
      end
  end.

(** [main()] with [sys.argv = argv], on a standard output that accepts every
    line printed (every [print] returns). *)
Definition main (w : world) (argv : list str) : termination * list output :=
  if negb (length argv =? 2)%nat then (SysExit 1, [Usage; UsageExample])
  else
    let query := nth 1 argv [] in
    let '((rag_tokens, rag_context), printed_rag) :=
      benchmark_rag_approach w query in
    let '((naive_tokens, naive_context), printed_naive) :=
      benchmark_naive_approach w query in
    let '(printed_comparison, raised) :=
      compare_results rag_tokens naive_tokens in
    let printed :=
      [Rule; Title; Rule; QueryLine query; Blank]
      ++ printed_rag ++ [Blank]
      ++ printed_naive ++ [Blank]
      ++ [Rule; ComparisonResults; Rule]
      ++ printed_comparison in
    match raised with
    | Some e => (Uncaught e, printed)
    | None =>
        let printed :=
          printed ++ [Blank; NoteTokenization; NoteTiktoken; NoteSimilar] in
        if save_contexts w then
          let '(t, printed_save) :=
            save_context_files w rag_context naive_context in
          (t, printed ++ printed_save)
        else (Finished, printed)
    end.

(** * Vocabulary of the properties *)

Definition is_nil (s : str) : bool :=
  match s with [] => true | _ :: _ => false end.

(** A word of [split]: not empty and free of whitespace. *)
Definition is_word (w : str) : Prop :=
  w <> [] /\ forallb (fun c => negb (isspace c)) w = true.

(** The quotient [a / b] of two integers as a float, for [b <> 0]. *)
Definition quotient (a b : Z) : float :=
  SFdiv prec emax (of_int_exact a) (of_int_exact b).

(** The lines of a complete comparison. *)
Definition complete_report (rag_tokens naive_tokens : Z) : list output :=
  let savings := (naive_tokens - rag_tokens)%Z in
  [RagApproachTokens rag_tokens;
   NaiveApproachTokens naive_tokens;
   TokenSavings savings (mul_int (quotient savings naive_tokens) 100)]
  ++ (if (0 <? savings)%Z
      then [RagSaves savings; RagEfficiency (quotient naive_tokens rag_tokens)]
      else [RagUsesMore (Z.abs savings)]).

(** The entry a candidate path contributes, and the line it makes the
    function print. *)
Definition entry_of (w : world) (file_path : str) : list file_info :=
  match read_file w file_path with
  | Readable content =>
      [{| info_file := file_path;
          info_content := content;
          info_size := Z.of_nat (length content) |}]
  | _ => []
  end.

Definition notice_of (w : world) (file_path : str) : list output :=
  match read_file w file_path with
  | Readable _ => []
  | NotFound => [WarningFileNotFound file_path]
  | Unreadable e => [ErrorReading file_path e]
  end.

Definition readable (w : world) (file_path : str) : bool :=
  match read_file w file_path with
  | Readable _ => true
  | _ => false
  end.

(** [sub] occurs in [s]. *)
Definition occurs (sub s : str) : Prop := exists a b, s = a ++ sub ++ b.

Definition all_words : list str :=
  cli_words ++ voice_words ++ llm_words ++ index_words.

(** A keyword group matches a query: one of its words occurs in the
    lowered query. *)
Definition matches (words : list str) (query : str) : Prop :=
  exists word, In word words /\ occurs word (lower query).

(** The files of the groups that match, in the order the groups are tested,
    given which of the four groups match. *)
Definition files_of_groups (cli voice llm index : bool) : list str :=
  (if cli then cli_files else [])
  ++ (if voice then voice_files else [])
  ++ (if llm then llm_files else [])
  ++ (if index then index_files else []).

(** The search process failed: it raised, or exited with a non-zero
    status. *)
Definition search_failed (r : run_result) : Prop :=
  match r with
  | RunRaised _ => True
  | Completed p => returncode p <> 0%Z
  end.

(** The error printed for a failed search. *)
Definition failure_line (r : run_result) : output :=
  match r with
  | RunRaised e => ErrorRunningSearch e
  | Completed p => ErrorRunningIndexer (stderr p)
  end.

(** A machine without cargo and without the candidate files, with context
    saving off. *)
Definition bare_world : world :=
  {| cargo_run_indexer := fun _ _ => RunRaised (OSError (py "cargo not found"));
     read_file := fun _ => NotFound;
     getenv_SAVE_CONTEXTS := None;
     write_temp := fun _ _ => TempFailed (OSError (py "no temporary directory")) |}.

(** What one file adds to the naive context. *)
Definition file_block (file_info : file_info) : str :=
  (py "--- File: " ++ info_file file_info ++ py " ---" ++ nl)
  ++ (info_content file_info ++ nl ++ nl).

(** What a run with one argument prints before the optional saving of the
    contexts. *)
Definition report_of (w : world) (query : str) : list output :=
  ([Rule; Title; Rule; QueryLine query; Blank]
   ++ snd (benchmark_rag_approach w query) ++ [Blank]
   ++ snd (benchmark_naive_approach w query) ++ [Blank]
   ++ [Rule; ComparisonResults; Rule]
   ++ fst (compare_results (fst (fst (benchmark_rag_approach w query)))
             (fst (fst (benchmark_naive_approach w query)))))
  ++ [Blank; NoteTokenization; NoteTiktoken; NoteSimilar].

(** The lines printed inside the two strategies. *)
Definition strategy_line (o : output) : bool :=
  match o with
  | ErrorRunningIndexer _ | ErrorRunningSearch _
  | WarningFileNotFound _ | ErrorReading _ _
  | RagSearching _ | NoChunksFound | RagFound _ | RagContextTokens _
  | NaiveIncluding | NaiveIncluded _ | TotalFileSize _
  | NaiveContextTokens _ => true
  | _ => false
  end.

(** The lines printed when the contexts are saved. *)
Definition saved_line (o : output) : bool :=
  match o with
  | RagContextSavedTo _ | NaiveContextSavedTo _ => true
  | _ => false
  end.

(** The machine of [bare_world] with SAVE_CONTEXTS=1: the temporary files
    cannot be created. *)
Definition no_tempdir_world : world :=
  {| cargo_run_indexer := cargo_run_indexer bare_world;
     read_file := read_file bare_world;
     getenv_SAVE_CONTEXTS := Some (py "1");
     write_temp := write_temp bare_world |}.

(** [c] does not occur in [s]. *)
Definition lacks (c : char) (s : str) : bool :=
  forallb (fun x => negb (x =? c)%N) s.

(** The rank of an entry: one of the digits 1 to 5. *)
Definition is_rank (c : char) : bool := ((49 <=? c) && (c <=? 53))%N.

(** One ranked entry of the search output, cut at the places the parser
    looks at: the header line is
    [indent rank "." lead "'" name "'" tail] and the body line is
    [indent "Lines" range ": " code]. *)
Record entry := {
  entry_indent : str;
  entry_rank : char;
  entry_lead : str;
  entry_name : str;
  entry_tail : str;
  body_indent : str;
  body_range : str;
  entry_code : str
}.

Definition header_line (e : entry) : str :=
  entry_indent e ++ entry_rank e :: 46%N :: entry_lead e
  ++ quote :: entry_name e ++ quote :: entry_tail e.

Definition body_line (e : entry) : str :=
  body_indent e ++ py "Lines" ++ body_range e ++ py ": " ++ entry_code e.

(** A well-formed entry: a rank from 1 to 5 after optional indentation, one
    quoted name, the "Score:" marker and the "in " of the file annotation
    somewhere on the header line, and a body line whose first ": " ends the
    line range; neither line holds a newline. *)
Definition well_formed (e : entry) : bool :=
  forallb isspace (entry_indent e) && is_rank (entry_rank e)
  && lacks quote (entry_lead e) && lacks quote (entry_name e)
  && lacks quote (entry_tail e)
  && contains (py "Score:") (header_line e)
  && contains (py "in ") (header_line e)
  && forallb isspace (body_indent e) && lacks 58%N (body_range e)
  && lacks 10%N (header_line e) && lacks 10%N (body_line e).

(** The chunk the parser builds from a well-formed entry: the file field is
    the whole tail of the header line after the closing quote. *)
Definition fragment (e : entry) : chunk :=
  {| chunk_name := entry_name e;
     chunk_file := entry_tail e;
     chunk_code := entry_code e |}.

(** The tests that make the parser act on a line. *)
Definition header_shape (line : str) : bool :=
  starts_with_rank line && contains (py "Score:") line
  && (2 <=? length (split_char quote line))%nat.

Definition body_shape (line : str) : bool :=
  negb (starts_with_rank line) && startswith (py "Lines") (strip line)
  && (find (py ": ") line + 2 >? 1)%Z.

(** A block of search output: ranked entries and other lines. *)
Inductive item :=
  | Ranked (e : entry)
  | Stray (line : str).

Definition item_lines (i : item) : list str :=
  match i with
  | Ranked e => [header_line e; body_line e]
  | Stray line => [line]
  end.

Definition item_fragments (i : item) : list chunk :=
  match i with
  | Ranked e => [fragment e]
  | Stray _ => []
  end.

Definition item_ok (i : item) : bool :=
  match i with
  | Ranked e => well_formed e
  | Stray line =>
      negb (header_shape line) && negb (body_shape line) && lacks 10%N line
  end.

Definition block_lines (items : list item) : list str :=
  flat_map item_lines items.

Definition block_text (items : list item) : str :=
  join nl (block_lines items).

(** A block of five entries in the shape the parser looks for. *)
Definition sample_lines : list str :=
  [py "1. 'main' (Score: 0.91) in src/main.rs";
   py "   Lines 1-20: fn main() {";
   py "2. 'Cli' (Score: 0.88) in src/bin/indexer.rs";
   py "   Lines 5-30: struct Cli {";
   py "3. 'chunk_file' (Score: 0.80) in src/index/chunker.rs";
   py "   Lines 10-42: pub fn chunk_file(path: &Path) {";
   py "4. 'embed' (Score: 0.75) in src/index/embedder.rs";
   py "   Lines 7-19: pub fn embed(text: &str) {";
   py "5. 'search' (Score: 0.71) in src/index/vector_store.rs";
   py "   Lines 50-88: pub fn search(&self) {"].

Definition sample_entry (rank : char) (name tail range code : str) : entry :=
  {| entry_indent := [];
     entry_rank := rank;
     entry_lead := py " ";
     entry_name := name;
     entry_tail := tail;
     body_indent := py "   ";
     body_range := range;
     entry_code := code |}.

(** The same block, cut into entries. *)
Definition sample_entries : list entry :=
  [sample_entry 49%N (py "main") (py " (Score: 0.91) in src/main.rs")
     (py " 1-20") (py "fn main() {");
   sample_entry 50%N (py "Cli") (py " (Score: 0.88) in src/bin/indexer.rs")
     (py " 5-30") (py "struct Cli {");
   sample_entry 51%N (py "chunk_file")
     (py " (Score: 0.80) in src/index/chunker.rs")
     (py " 10-42") (py "pub fn chunk_file(path: &Path) {");
   sample_entry 52%N (py "embed") (py " (Score: 0.75) in src/index/embedder.rs")
     (py " 7-19") (py "pub fn embed(text: &str) {");
   sample_entry 53%N (py "search")
     (py " (Score: 0.71) in src/index/vector_store.rs")
     (py " 50-88") (py "pub fn search(&self) {")].

(** Whether the text read so far ends in whitespace, [after_space] telling
    it for the empty text. *)
Definition ends_in_space (after_space : bool) (text : str) : bool :=
  fold_left (fun _ c => isspace c) text after_space.

(** The sum of a list of integers. *)
Definition sum_Z (l : list Z) : Z := fold_right Z.add 0%Z l.

(** What the chunk of rank [i] adds to the retrieval context. *)
Definition chunk_block (i : nat) (c : chunk) : str :=
  (py "--- Chunk " ++ str_of_nat i ++ py ": " ++ chunk_name c
   ++ py " from " ++ chunk_file c ++ py " ---" ++ nl)
  ++ (chunk_code c ++ nl ++ nl).

Fixpoint chunk_blocks (i : nat) (chunks : list chunk) : str :=
  match chunks with
  | [] => []
  | c :: rest => chunk_block i c ++ chunk_blocks (S i) rest
  end.

Definition rag_header (query : str) : str :=
  py "Query: " ++ query ++ nl ++ nl ++ py "Relevant code chunks:" ++ nl ++ nl.

(** The tokens one chunk costs: the five of its frame ("---", "Chunk",
    "<i>:", "from", "---") and those of its three fields. *)
Definition chunk_cost (c : chunk) : Z :=
  (5 + count_tokens (chunk_name c) + count_tokens (chunk_file c)
   + count_tokens (chunk_code c))%Z.

(** The tokens one file costs in the naive context: the three of its frame
    ("---", "File:", "---") and those of its path and of its content. *)
Definition file_cost (fi : file_info) : Z :=
  (3 + count_tokens (info_file fi) + count_tokens (info_content fi))%Z.

(** The pending chunk a header line opens (lines 56 to 62). *)
Definition header_chunk (line : str) : chunk :=
  {| chunk_name := nth 1 (split_char quote line) [];
     chunk_file := if contains (py "in ") line
                   then last (split_char quote line) [] else py "unknown";
     chunk_code := [] |}.

(** The code a body line gives (lines 65 to 67). *)
Definition body_code (line : str) : str :=
  slice_from (find (py ": ") line + 2) line.

(** The pending chunk, completed by a body line. *)
Definition with_code (c : chunk) (code : str) : chunk :=
  {| chunk_name := chunk_name c;
     chunk_file := chunk_file c;
     chunk_code := code |}.

(** The lines of a text. *)
Definition lines_of (out : str) : list str := split_char 10%N out.

(** The chunk comes from a header line and a body line of [lines]. *)
Definition chunk_from (lines : list str) (c : chunk) : Prop :=
  exists header body,
    In header lines /\ In body lines
    /\ header_shape header = true /\ body_shape body = true
    /\ c = with_code (header_chunk header) (body_code body).

(** The pending chunk comes from a header line of [lines]. *)
Definition pending_from (lines : list str) (current_chunk : option chunk)
  : Prop :=
  match current_chunk with
  | None => True
  | Some c =>
      exists header,
        In header lines /\ header_shape header = true
        /\ c = header_chunk header
  end.

Definition pending_count (current_chunk : option chunk) : nat :=
  match current_chunk with
  | None => 0
  | Some _ => 1
  end.

(** The keys [dict.fromkeys] adds to a dictionary that holds [seen]. *)
Fixpoint new_keys (seen : list str) (l : list str) : list str :=
  match l with
  | [] => []
  | k :: rest =>
      if existsb (str_eqb k) seen then new_keys seen rest
      else k :: new_keys (seen ++ [k]) rest
  end.

(** Every file the naive strategy can name. *)
Definition known_files : list str :=
  cli_files ++ voice_files ++ llm_files ++ index_files ++ default_files.

(** A machine where the search prints the sample block and succeeds; no
    candidate file is there and context saving is off. *)
Definition sample_world : world :=
  {| cargo_run_indexer := fun _ _ =>
       Completed {| returncode := 0;
                    stdout := block_text (map Ranked sample_entries);
                    stderr := [] |};
     read_file := fun _ => NotFound;
     getenv_SAVE_CONTEXTS := None;
     write_temp := fun _ _ => TempFailed (OSError (py "no temporary directory")) |}.

(** The text with its ASCII capitals lowered and nothing else changed. *)
Definition ascii_lower_char (c : char) : char :=
  if ((65 <=? c) && (c <=? 90))%N then (c + 32)%N else c.

Definition ascii_lower (s : str) : str := map ascii_lower_char s.

(** The entries of a block, in the order of the text. *)
Definition item_entries (items : list item) : list entry :=
  flat_map (fun i => match i with
                     | Ranked e => [e]
                     | Stray _ => []
                     end) items.

(** * Properties *)


(** ** The cost metric *)

Lemma length_split_from (text cur : str) :
  length (split_from cur text)
  = ((if is_nil cur then 0 else 1) + run_starts (is_nil cur) text)%nat.
Proof.
  revert cur; induction text as [|c rest IH]; intros cur; simpl.
  - destruct cur; reflexivity.
  - destruct (isspace c) eqn:Hc.
    + destruct cur; simpl; rewrite IH; simpl; lia.
    + rewrite IH; simpl. destruct cur; simpl; lia.
Qed.

Lemma forallb_rev (f : char -> bool) (l : str) :
  forallb f (rev l) = forallb f l.
Proof.
  induction l as [|a l IH]; simpl; [reflexivity|].
  rewrite forallb_app, IH; simpl. rewrite andb_true_r. apply andb_comm.
Qed.

Lemma split_from_words (text cur : str) :
  forallb (fun c => negb (isspace c)) cur = true ->
  Forall is_word (split_from cur text).
Proof.
  revert cur; induction text as [|c rest IH]; intros cur Hcur; simpl.
  - destruct cur as [|a cur]; constructor; [|constructor].
    split.
    + intros H. apply (f_equal (@length _)) in H.
      rewrite length_rev in H. discriminate.
    + rewrite forallb_rev. exact Hcur.
  - destruct (isspace c) eqn:Hc.
    + destruct cur as [|a cur].
      * apply IH. reflexivity.
      * constructor; [|apply IH; reflexivity].
        split.
        -- intros H. apply (f_equal (@length _)) in H.
           rewrite length_rev in H. discriminate.
        -- rewrite forallb_rev. exact Hcur.
    + apply IH. simpl. rewrite Hc. exact Hcur.
Qed.

(** The text splits at a whitespace character: the words on its left, then
    the words on its right. *)
Lemma split_from_app_space (x y cur : str) (c : char) :
  isspace c = true ->
  split_from cur (x ++ c :: y) = split_from cur x ++ split y.
Proof.
  intros Hc. revert cur; induction x as [|a x IH]; intros cur; simpl.
  - rewrite Hc. destruct cur; reflexivity.
  - destruct (isspace a).
    + destruct cur; simpl; rewrite IH; reflexivity.
    + apply IH.
Qed.

Lemma count_tokens_app_space (x y : str) (c : char) :
  isspace c = true ->
  count_tokens (x ++ c :: y) = (count_tokens x + count_tokens y)%Z.
Proof.
  intros Hc. unfold count_tokens, split.
  rewrite (split_from_app_space x y [] c Hc), length_app.
  apply Nat2Z.inj_add.
Qed.

Lemma count_tokens_nonneg (text : str) : (0 <= count_tokens text)%Z.
Proof. unfold count_tokens. lia. Qed.

(** C3: for every text the cost metric is a non-negative integer, the number
    of maximal runs of non-whitespace characters of the text, each word
    counted being such a run; the cost of the empty text is 0 and the cost
    of "a b  c" is 3.  The metric is a total function. *)
Theorem count_tokens_maximal_runs :
  (forall text : str,
      count_tokens text = Z.of_nat (maximal_runs text)
      /\ (0 <= count_tokens text)%Z
      /\ Forall is_word (split text))
  /\ count_tokens [] = 0%Z
  /\ count_tokens (py "a b  c") = 3%Z.
Proof.
  split; [|split; reflexivity].
  intros text. split; [|split].
  - unfold count_tokens, maximal_runs, split.
    rewrite length_split_from. reflexivity.
  - apply count_tokens_nonneg.
  - apply split_from_words. reflexivity.
Qed.

(** ** The comparison *)

Lemma int_truediv_nonzero (a b : Z) :
  b <> 0%Z ->
  int_truediv a b = Ok (SFdiv prec emax (of_int_exact a) (of_int_exact b)).
Proof.
  intros Hb. unfold int_truediv.
  destruct (Z.eqb_spec b 0) as [H0|_]; [contradiction|reflexivity].
Qed.

Lemma compare_results_complete (rag_tokens naive_tokens : Z) :
  (0 < rag_tokens)%Z -> (0 < naive_tokens)%Z ->
  compare_results rag_tokens naive_tokens
  = (complete_report rag_tokens naive_tokens, None).
Proof.
  intros Hr Hn. unfold compare_results, complete_report.
  rewrite !Z.gtb_ltb.
  destruct (Z.ltb_spec 0 rag_tokens) as [_|]; [|lia].
  destruct (Z.ltb_spec 0 naive_tokens) as [_|]; [|lia].
  simpl andb. cbv iota.
  rewrite (int_truediv_nonzero (naive_tokens - rag_tokens) naive_tokens)
    by lia.
  rewrite (int_truediv_nonzero naive_tokens rag_tokens) by lia.
  fold (quotient (naive_tokens - rag_tokens) naive_tokens).
  fold (quotient naive_tokens rag_tokens).
  destruct (0 <? naive_tokens - rag_tokens)%Z; reflexivity.
Qed.

Lemma compare_results_incomplete (rag_tokens naive_tokens : Z) :
  (rag_tokens <= 0)%Z \/ (naive_tokens <= 0)%Z ->
  compare_results rag_tokens naive_tokens = ([ComparisonIncomplete], None).
Proof.
  intros H. unfold compare_results. rewrite !Z.gtb_ltb.
  destruct (Z.ltb_spec 0 rag_tokens); [|reflexivity].
  destruct (Z.ltb_spec 0 naive_tokens); [lia|reflexivity].
Qed.

Lemma compare_results_cases (rag_tokens naive_tokens : Z) :
  ((0 < rag_tokens)%Z /\ (0 < naive_tokens)%Z
   /\ compare_results rag_tokens naive_tokens
      = (complete_report rag_tokens naive_tokens, None))
  \/ (((rag_tokens <= 0)%Z \/ (naive_tokens <= 0)%Z)
      /\ compare_results rag_tokens naive_tokens
         = ([ComparisonIncomplete], None)).
Proof.
  destruct (Z.lt_ge_cases 0 rag_tokens) as [Hr|Hr];
    [destruct (Z.lt_ge_cases 0 naive_tokens) as [Hn|Hn]|].
  - left. auto using compare_results_complete.
  - right. split; [|apply compare_results_incomplete]; lia.
  - right. split; [|apply compare_results_incomplete]; lia.
Qed.

Lemma efficiency_in_complete_report (rag_tokens naive_tokens : Z) (e : float) :
  In (RagEfficiency e) (complete_report rag_tokens naive_tokens) ->
  (0 < naive_tokens - rag_tokens)%Z /\ e = quotient naive_tokens rag_tokens.
Proof.
  unfold complete_report.
  destruct (Z.ltb_spec 0 (naive_tokens - rag_tokens)) as [Hs|Hs]; simpl;
    intros H;
    repeat match goal with
           | H : _ \/ _ |- _ => destruct H as [H|H]
           | H : False |- _ => contradiction
           | H : _ = RagEfficiency _ |- _ => inversion H; subst; clear H
           end.
  split; [exact Hs|reflexivity].
Qed.

(** C1: when both costs are strictly positive the comparison prints the two
    costs, savings = naive - rag and the percentage (savings / naive) * 100,
    then, when savings > 0, the win with the efficiency ratio naive / rag,
    and otherwise the regression with no ratio; no exception is raised.  A
    ratio is printed exactly when savings > 0.  For rag = 100 and
    naive = 400 the savings are 300, the percentage is the float 75.0
    (75 * 2^46 * 2^-46) and the ratio is the float 4.0. *)
Theorem compare_results_positive (rag_tokens naive_tokens : Z) :
  (0 < rag_tokens)%Z -> (0 < naive_tokens)%Z ->
  let savings := (naive_tokens - rag_tokens)%Z in
  compare_results rag_tokens naive_tokens
  = ([RagApproachTokens rag_tokens;
      NaiveApproachTokens naive_tokens;
      TokenSavings savings (mul_int (quotient savings naive_tokens) 100)]
     ++ (if (0 <? savings)%Z
         then [RagSaves savings;
               RagEfficiency (quotient naive_tokens rag_tokens)]
         else [RagUsesMore (Z.abs savings)]),
     None)
  /\ ((exists e, In (RagEfficiency e)
                    (fst (compare_results rag_tokens naive_tokens)))
      <-> (0 < savings)%Z)
  /\ compare_results 100 400
     = ([RagApproachTokens 100; NaiveApproachTokens 400;
         TokenSavings 300 (of_int 75);
         RagSaves 300; RagEfficiency (of_int 4)], None)
  /\ of_int 75 = S754_finite false (75 * 2 ^ 46) (-46)
  /\ of_int 4 = S754_finite false (4 * 2 ^ 50) (-50).
Proof.
  intros Hr Hn savings.
  split; [|split].
  - apply compare_results_complete; assumption.
  - rewrite compare_results_complete by assumption. simpl fst. split.
    + intros [e He]. apply efficiency_in_complete_report in He. tauto.
    + intros Hs. exists (quotient naive_tokens rag_tokens).
      unfold complete_report. fold savings.
      destruct (Z.ltb_spec 0 savings) as [_|]; [|lia].
      simpl. tauto.
  - split; [|split]; vm_compute; reflexivity.
Qed.

(** The instance of C1 at rag = 100 and naive = 400. *)
Lemma compare_results_positive_100_400 :
  (0 < 100)%Z /\ (0 < 400)%Z
  /\ compare_results 100 400
     = ([RagApproachTokens 100; NaiveApproachTokens 400;
         TokenSavings 300 (of_int 75);
         RagSaves 300; RagEfficiency (of_int 4)], None).
Proof.
  split; [lia|split; [lia|]].
  apply (compare_results_positive 100 400); lia.
Defined.

(** At a retrieval cost of 0 no efficiency ratio is printed, unbounded or
    not: the comparison is reported as incomplete. *)
Lemma compare_results_zero_rag_no_ratio :
  compare_results 0 400 = ([ComparisonIncomplete], None)
  /\ ~ (exists e, In (RagEfficiency e) (fst (compare_results 0 400))).
Proof.
  split; [reflexivity|].
  intros [e [H|[]]]. discriminate H.
Qed.

(** C2, amended: the comparison never raises, in particular no division by
    zero; if either cost is non-positive it prints the incomplete-comparison
    line alone, so that at a retrieval cost of 0 no efficiency ratio is
    printed at all; and a ratio that is printed is the quotient naive / rag
    of a strictly positive retrieval cost, never the unbounded fallback. *)
Theorem compare_results_nonpositive (rag_tokens naive_tokens : Z) :
  snd (compare_results rag_tokens naive_tokens) = None
  /\ ((rag_tokens <= 0)%Z \/ (naive_tokens <= 0)%Z ->
      compare_results rag_tokens naive_tokens = ([ComparisonIncomplete], None))
  /\ (forall e, In (RagEfficiency e)
                   (fst (compare_results rag_tokens naive_tokens)) ->
                (0 < rag_tokens)%Z
                /\ int_truediv naive_tokens rag_tokens = Ok e).
Proof.
  split; [|split].
  - destruct (compare_results_cases rag_tokens naive_tokens)
      as [(_ & _ & ->)|[_ ->]]; reflexivity.
  - apply compare_results_incomplete.
  - intros e.
    destruct (compare_results_cases rag_tokens naive_tokens)
      as [(Hr & _ & ->)|[_ ->]]; simpl fst.
    + intros He. apply efficiency_in_complete_report in He.
      destruct He as [_ ->]. split; [exact Hr|].
      apply int_truediv_nonzero. lia.
    + intros [H|[]]. discriminate H.
Qed.

(** The instance of C2 at rag = 0 and naive = 400. *)
Lemma compare_results_nonpositive_0_400 :
  snd (compare_results 0 400) = None
  /\ compare_results 0 400 = ([ComparisonIncomplete], None).
Proof.
  destruct (compare_results_nonpositive 0 400) as (Hnone & Hinc & _).
  split; [exact Hnone|].
  apply Hinc. left. lia.
Defined.

(** ** File gathering *)

Lemma get_file_contents_from (w : world) (file_paths : list str)
  (contents : list file_info) (printed : list output) :
  fold_left (read_candidate w) file_paths (contents, printed)
  = (contents ++ flat_map (entry_of w) file_paths,
     printed ++ flat_map (notice_of w) file_paths).
Proof.
  revert contents printed.
  induction file_paths as [|p rest IH]; intros contents printed; simpl.
  - rewrite !app_nil_r. reflexivity.
  - unfold entry_of at 1, notice_of at 1.
    destruct (read_file w p) as [|content|e]; simpl;
      rewrite IH, <- ?app_assoc; reflexivity.
Qed.

Lemma get_file_contents_eq (w : world) (file_paths : list str) :
  get_file_contents w file_paths
  = (flat_map (entry_of w) file_paths, flat_map (notice_of w) file_paths).
Proof. unfold get_file_contents. apply get_file_contents_from. Qed.

Lemma entries_files (w : world) (file_paths : list str) :
  map info_file (flat_map (entry_of w) file_paths)
  = filter (readable w) file_paths.
Proof.
  induction file_paths as [|p rest IH]; simpl; [reflexivity|].
  rewrite map_app, IH. unfold entry_of, readable.
  destruct (read_file w p); reflexivity.
Qed.

Lemma entries_content (w : world) (file_paths : list str) :
  Forall (fun fi =>
            read_file w (info_file fi) = Readable (info_content fi)
            /\ info_size fi = Z.of_nat (length (info_content fi)))
         (flat_map (entry_of w) file_paths).
Proof.
  induction file_paths as [|p rest IH]; simpl; [constructor|].
  apply Forall_app. split; [|exact IH].
  unfold entry_of. destruct (read_file w p) eqn:Hp; constructor;
    [|constructor].
  simpl. auto.
Qed.

Lemma entries_notices_length (w : world) (file_paths : list str) :
  (length (flat_map (entry_of w) file_paths)
   + length (flat_map (notice_of w) file_paths))%nat
  = length file_paths.
Proof.
  induction file_paths as [|p rest IH]; simpl; [reflexivity|].
  rewrite !length_app. unfold entry_of at 1, notice_of at 1.
  destruct (read_file w p); simpl; lia.
Qed.

(** C8: for every file system and every list of candidate paths, file
    gathering returns (it cannot abort) one entry for each readable path and
    no other, in the order of the candidates, each with the content read and
    its length; and it prints one line for each missing path (a warning) and
    each unreadable path (the error), in the order of the candidates. *)
Theorem get_file_contents_partial (w : world) (file_paths : list str) :
  map info_file (fst (get_file_contents w file_paths))
  = filter (readable w) file_paths
  /\ Forall (fun fi =>
               read_file w (info_file fi) = Readable (info_content fi)
               /\ info_size fi = Z.of_nat (length (info_content fi)))
            (fst (get_file_contents w file_paths))
  /\ snd (get_file_contents w file_paths)
     = flat_map (fun p => match read_file w p with
                          | Readable _ => []
                          | NotFound => [WarningFileNotFound p]
                          | Unreadable e => [ErrorReading p e]
                          end) file_paths
  /\ (length (fst (get_file_contents w file_paths))
      + length (snd (get_file_contents w file_paths)))%nat
     = length file_paths.
Proof.
  rewrite get_file_contents_eq. simpl fst. simpl snd.
  split; [apply entries_files|].
  split; [apply entries_content|].
  split; [reflexivity|apply entries_notices_length].
Qed.

(** ** Strings: what the tests mean *)

Lemma str_eqb_eq (a b : str) : str_eqb a b = true <-> a = b.
Proof.
  revert b; induction a as [|x a IH]; intros [|y b]; simpl;
    try (split; [discriminate|discriminate]); [tauto|].
  rewrite andb_true_iff, N.eqb_eq, IH.
  split; [intros [-> ->]; reflexivity|intros H; inversion H; auto].
Qed.

Lemma startswith_prefix (p s : str) :
  startswith p s = true <-> exists r, s = p ++ r.
Proof.
  revert s; induction p as [|a p IH]; intros s; simpl.
  - split; [intros _; exists s; reflexivity|reflexivity].
  - destruct s as [|b s].
    + split; [discriminate|intros [r H]; discriminate H].
    + rewrite andb_true_iff, N.eqb_eq, IH. split.
      * intros [-> [r ->]]. exists r. reflexivity.
      * intros [r H]. inversion H. eauto.
Qed.

Lemma startswith_app (p r : str) : startswith p (p ++ r) = true.
Proof. apply startswith_prefix. eauto. Qed.

Lemma contains_occurs (sub s : str) : contains sub s = true <-> occurs sub s.
Proof.
  unfold occurs. induction s as [|c s IH]; simpl.
  - rewrite orb_false_r, startswith_prefix. split.
    + intros [r H]. exists [], r. exact H.
    + intros [a [b H]]. destruct a as [|x a]; [|discriminate H].
      exists b. exact H.
  - rewrite orb_true_iff, startswith_prefix, IH. split.
    + intros [[r H]|[a [b H]]].
      * exists [], r. exact H.
      * exists (c :: a), b. simpl. rewrite H. reflexivity.
    + intros [[|x a] [b H]].
      * left. exists b. exact H.
      * right. inversion H. eauto.
Qed.

Lemma not_contains_occurs (sub s : str) :
  contains sub s = false <-> ~ occurs sub s.
Proof.
  rewrite <- contains_occurs. destruct (contains sub s); split;
    congruence.
Qed.

(** ** Keyword classification *)

Lemma any_word_in_matches (words : list str) (query : str) :
  any_word_in words (lower query) = true <-> matches words query.
Proof.
  unfold any_word_in, matches. rewrite existsb_exists.
  split; intros [word [Hin H]]; exists word; split; try exact Hin;
    apply contains_occurs; exact H.
Qed.

Lemma any_word_in_not_matches (words : list str) (query : str) :
  any_word_in words (lower query) = false <-> ~ matches words query.
Proof.
  rewrite <- any_word_in_matches.
  destruct (any_word_in words (lower query)); split; congruence.
Qed.

Lemma fromkeys_In (l keys : list str) (x : str) :
  In x (fromkeys keys l) <-> In x keys \/ In x l.
Proof.
  revert keys; induction l as [|k rest IH]; intros keys; simpl.
  - tauto.
  - destruct (existsb (str_eqb k) keys) eqn:Hk; rewrite IH.
    + apply existsb_exists in Hk. destruct Hk as [k' [Hin Heq]].
      apply str_eqb_eq in Heq. subst k'.
      split; [tauto|]. intros [H|[<-|H]]; auto.
    + rewrite in_app_iff. simpl. tauto.
Qed.

Lemma fromkeys_NoDup (l keys : list str) :
  NoDup keys -> NoDup (fromkeys keys l).
Proof.
  revert keys; induction l as [|k rest IH]; intros keys Hkeys; simpl.
  - exact Hkeys.
  - destruct (existsb (str_eqb k) keys) eqn:Hk; apply IH; [exact Hkeys|].
    apply NoDup_rev in Hkeys. rewrite <- (rev_involutive (keys ++ [k])).
    apply NoDup_rev. rewrite rev_app_distr. simpl. constructor.
    + rewrite <- in_rev. intros Hin.
      assert (existsb (str_eqb k) keys = true) as E; [|congruence].
      apply existsb_exists. exists k. split; [exact Hin|].
      apply str_eqb_eq. reflexivity.
    + exact Hkeys.
Qed.

Lemma fromkeys_distinct (l keys : list str) :
  NoDup (keys ++ l) -> fromkeys keys l = keys ++ l.
Proof.
  revert keys; induction l as [|k rest IH]; intros keys H; simpl.
  - rewrite app_nil_r. reflexivity.
  - destruct (existsb (str_eqb k) keys) eqn:Hk.
    + apply existsb_exists in Hk. destruct Hk as [k' [Hin Heq]].
      apply str_eqb_eq in Heq. subst k'.
      apply NoDup_remove_2 in H. exfalso. apply H.
      apply in_or_app. left. exact Hin.
    + rewrite IH; rewrite <- app_assoc; simpl; [reflexivity|exact H].
Qed.

(** [dict.fromkeys] keeps one copy of every key, the first, and changes
    nothing in a list without duplicates. *)
Lemma dict_fromkeys_spec (l : list str) :
  NoDup (dict_fromkeys l)
  /\ (forall x, In x (dict_fromkeys l) <-> In x l)
  /\ (NoDup l -> dict_fromkeys l = l).
Proof.
  unfold dict_fromkeys. split; [|split].
  - apply fromkeys_NoDup. constructor.
  - intros x. rewrite fromkeys_In. simpl. tauto.
  - intros H. apply (fromkeys_distinct l []). exact H.
Qed.

Lemma relevant_files_groups (query : str) :
  let q := lower query in
  relevant_files query
  = match files_of_groups (any_word_in cli_words q) (any_word_in voice_words q)
            (any_word_in llm_words q) (any_word_in index_words q) with
    | [] => default_files
    | files => files
    end.
Proof.
  unfold relevant_files. cbv zeta.
  generalize (any_word_in cli_words (lower query))
    (any_word_in voice_words (lower query))
    (any_word_in llm_words (lower query))
    (any_word_in index_words (lower query)).
  intros [] [] [] []; reflexivity.
Qed.

Lemma relevant_files_NoDup (query : str) : NoDup (relevant_files query).
Proof.
  unfold relevant_files. apply dict_fromkeys_spec.
Qed.

Lemma any_word_in_ext (words : list str) (q q' : str) :
  (forall word, In word words -> contains word q' = contains word q) ->
  any_word_in words q' = any_word_in words q.
Proof.
  intros H. unfold any_word_in.
  induction words as [|word rest IH]; simpl; [reflexivity|].
  rewrite (H word) by (left; reflexivity).
  rewrite IH; [reflexivity|]. intros k Hk. apply H. right. exact Hk.
Qed.

Lemma contains_iff_eq (sub s s' : str) :
  (occurs sub s' <-> occurs sub s) -> contains sub s' = contains sub s.
Proof.
  rewrite <- !contains_occurs.
  destruct (contains sub s'), (contains sub s); intuition congruence.
Qed.

Lemma occurs_iff_of_contains (sub s s' : str) :
  contains sub s' = contains sub s -> (occurs sub s' <-> occurs sub s).
Proof. intros H. rewrite <- !contains_occurs, H. tauto. Qed.

Lemma any_word_in_all_false (query : str) :
  (forall word, In word all_words -> ~ occurs word (lower query)) ->
  any_word_in cli_words (lower query) = false
  /\ any_word_in voice_words (lower query) = false
  /\ any_word_in llm_words (lower query) = false
  /\ any_word_in index_words (lower query) = false.
Proof.
  intros H.
  repeat split; apply any_word_in_not_matches; intros [word [Hin Hocc]];
    apply (H word); try exact Hocc; unfold all_words;
    repeat (apply in_or_app; first [left; exact Hin|right]); exact Hin.
Qed.

(** C6: the candidate list is a function of which keyword groups match the
    lowered query.  It is the concatenation, in the fixed order of the
    groups, of the file lists of the groups that match (the default list
    when none does): every matching group contributes its list.  It has no
    duplicates, and two queries in which the same keywords occur, wherever
    and in whatever order, have the same candidates.  For a query whose
    matching groups are the "cli" group and the "index" group, the
    candidates are exactly the files of the "cli" group followed by those of
    the "index" group. *)
Theorem relevant_files_union (query query' : str) :
  (forall word, In word all_words ->
                (occurs word (lower query') <-> occurs word (lower query))) ->
  relevant_files query
  = match files_of_groups (any_word_in cli_words (lower query))
            (any_word_in voice_words (lower query))
            (any_word_in llm_words (lower query))
            (any_word_in index_words (lower query)) with
    | [] => default_files
    | files => files
    end
  /\ NoDup (relevant_files query)
  /\ relevant_files query' = relevant_files query
  /\ (matches cli_words query -> matches index_words query ->
      ~ matches voice_words query -> ~ matches llm_words query ->
      relevant_files query = cli_files ++ index_files).
Proof.
  intros Hsame.
  split; [apply relevant_files_groups|].
  split; [apply relevant_files_NoDup|].
  split.
  - rewrite (relevant_files_groups query), (relevant_files_groups query').
    cbv zeta.
    assert (forall words, incl words all_words ->
              any_word_in words (lower query')
              = any_word_in words (lower query)) as E.
    { intros words Hincl. apply any_word_in_ext. intros word Hin.
      apply contains_iff_eq. apply Hsame. apply Hincl. exact Hin. }
    rewrite !E; [reflexivity| | | |]; unfold all_words; intros x Hx;
      repeat (apply in_or_app; first [left; exact Hx|right]); exact Hx.
  - intros Hcli Hindex Hvoice Hllm.
    rewrite relevant_files_groups. cbv zeta.
    apply any_word_in_matches in Hcli, Hindex.
    apply any_word_in_not_matches in Hvoice, Hllm.
    rewrite Hcli, Hindex, Hvoice, Hllm. reflexivity.
Qed.

(** The instance of C6 at "index the cli" and "CLI index". *)
Lemma relevant_files_union_cli_index :
  relevant_files (py "CLI index") = relevant_files (py "index the cli")
  /\ relevant_files (py "index the cli") = cli_files ++ index_files.
Proof.
  assert (forall word, In word all_words ->
            (occurs word (lower (py "CLI index"))
             <-> occurs word (lower (py "index the cli")))) as Hsame.
  { intros word H. apply occurs_iff_of_contains.
    simpl in H.
    repeat (destruct H as [<-|H]; [reflexivity|]). contradiction. }
  destruct (relevant_files_union (py "index the cli") (py "CLI index") Hsame)
    as (_ & _ & Heq & Hunion).
  split; [exact Heq|].
  apply Hunion.
  - apply any_word_in_matches. reflexivity.
  - apply any_word_in_matches. reflexivity.
  - apply any_word_in_not_matches. reflexivity.
  - apply any_word_in_not_matches. reflexivity.
Defined.

(** C7: for every query in whose lowered text no keyword of any group
    occurs, the candidate list is the default list: 'src/main.rs',
    'Cargo.toml', 'README.md'. *)
Theorem relevant_files_default (query : str) :
  (forall word, In word all_words -> ~ occurs word (lower query)) ->
  relevant_files query = [py "src/main.rs"; py "Cargo.toml"; py "README.md"].
Proof.
  intros H. apply any_word_in_all_false in H.
  destruct H as (Hcli & Hvoice & Hllm & Hindex).
  rewrite relevant_files_groups. cbv zeta.
  rewrite Hcli, Hvoice, Hllm, Hindex. reflexivity.
Qed.

(** The instance of C7 at "Hello World". *)
Lemma relevant_files_default_hello :
  relevant_files (py "Hello World")
  = [py "src/main.rs"; py "Cargo.toml"; py "README.md"].
Proof.
  apply relevant_files_default.
  intros word H. apply not_contains_occurs.
  simpl in H.
  repeat (destruct H as [<-|H]; [reflexivity|]). contradiction.
Defined.

(** ** The retrieval strategy on failures *)

(** C5: when the search process raises an exception or exits with a
    non-zero status, [run_indexer_search] prints the error and returns no
    chunk; the function is total, so nothing is raised to its caller.
    Whenever it returns no chunk, [benchmark_rag_approach] prints that no
    chunk was found and returns the cost 0 with the empty context. *)
Theorem run_indexer_search_fails_soft (w : world) (query : str) :
  (forall top_k,
      search_failed (cargo_run_indexer w query top_k) ->
      run_indexer_search w query top_k
      = ([], [failure_line (cargo_run_indexer w query top_k)]))
  /\ (fst (run_indexer_search w query 5) = [] ->
      benchmark_rag_approach w query
      = ((0%Z, []),
         [RagSearching query] ++ snd (run_indexer_search w query 5)
         ++ [NoChunksFound])).
Proof.
  split.
  - intros top_k Hfail. unfold run_indexer_search.
    destruct (cargo_run_indexer w query top_k) as [p|e]; [|reflexivity].
    cbn [search_failed] in Hfail.
    destruct (Z.eqb_spec (returncode p) 0) as [H0|_]; [contradiction|].
    reflexivity.
  - intros Hnone. unfold benchmark_rag_approach.
    destruct (run_indexer_search w query 5) as [chunks printed].
    cbn [fst] in Hnone. subst chunks. reflexivity.
Qed.

(** The instance of C5 on a machine without cargo. *)
Lemma run_indexer_search_fails_soft_bare :
  run_indexer_search bare_world (py "add a command") 5
  = ([], [ErrorRunningSearch (OSError (py "cargo not found"))])
  /\ benchmark_rag_approach bare_world (py "add a command")
     = ((0%Z, []),
        [RagSearching (py "add a command");
         ErrorRunningSearch (OSError (py "cargo not found"));
         NoChunksFound]).
Proof.
  destruct (run_indexer_search_fails_soft bare_world (py "add a command"))
    as [Hsearch Hrag].
  split.
  - apply (Hsearch 5%Z). exact I.
  - apply Hrag. reflexivity.
Defined.

(** ** The naive context and its cost *)

Lemma add_file_fold (file_contents : list file_info) (context : str) (n : Z) :
  fst (fold_left add_file file_contents (context, n))
  = context ++ flat_map file_block file_contents.
Proof.
  revert context n.
  induction file_contents as [|fi rest IH]; intros context n;
    cbn [fold_left flat_map].
  - rewrite app_nil_r. reflexivity.
  - replace (add_file (context, n) fi)
      with (context ++ file_block fi, (n + info_size fi)%Z) by reflexivity.
    rewrite IH, <- app_assoc. reflexivity.
Qed.

Lemma naive_context_eq (w : world) (query : str) :
  benchmark_naive_approach w query
  = let file_contents := fst (get_file_contents w (relevant_files query)) in
    let naive_context :=
      naive_header query ++ flat_map file_block file_contents in
    ((count_tokens naive_context, naive_context),
     [NaiveIncluding] ++ snd (get_file_contents w (relevant_files query))
     ++ [NaiveIncluded (Z.of_nat (length file_contents));
         TotalFileSize
           (snd (fold_left add_file file_contents (naive_header query, 0%Z)));
         NaiveContextTokens (count_tokens naive_context)]).
Proof.
  unfold benchmark_naive_approach.
  destruct (get_file_contents w (relevant_files query))
    as [file_contents printed].
  cbv zeta. simpl fst. simpl snd.
  rewrite <- (add_file_fold file_contents (naive_header query) 0%Z).
  destruct (fold_left add_file file_contents (naive_header query, 0%Z)).
  reflexivity.
Qed.

(** The header alone carries four tokens besides those of the query. *)
Lemma count_tokens_naive_header (query rest : str) :
  count_tokens (naive_header query ++ rest)
  = (4 + count_tokens query + count_tokens rest)%Z.
Proof.
  unfold naive_header. rewrite <- !app_assoc.
  change (py "Query: " ++ query ++ nl ++ nl ++ py "Entire file contents:"
          ++ nl ++ nl ++ rest)
    with (py "Query:" ++ 32%N ::
          (query ++ 10%N ::
           ([] ++ 10%N ::
            (py "Entire" ++ 32%N ::
             (py "file" ++ 32%N ::
              (py "contents:" ++ 10%N :: ([] ++ 10%N :: rest))))))).
  rewrite !count_tokens_app_space by reflexivity.
  change (count_tokens (py "Query:")) with 1%Z.
  change (count_tokens (py "Entire")) with 1%Z.
  change (count_tokens (py "file")) with 1%Z.
  change (count_tokens (py "contents:")) with 1%Z.
  change (count_tokens []) with 0%Z.
  lia.
Qed.

Lemma naive_tokens_ge_4 (w : world) (query : str) :
  (4 <= fst (fst (benchmark_naive_approach w query)))%Z.
Proof.
  rewrite naive_context_eq. cbv zeta. cbn [fst].
  rewrite count_tokens_naive_header.
  pose proof (count_tokens_nonneg query).
  pose proof (count_tokens_nonneg
                (flat_map file_block
                   (fst (get_file_contents w (relevant_files query))))).
  lia.
Qed.

Lemma rag_tokens_nonneg (w : world) (query : str) :
  (0 <= fst (fst (benchmark_rag_approach w query)))%Z.
Proof.
  unfold benchmark_rag_approach.
  destruct (run_indexer_search w query 5) as [[|c chunks] printed]; simpl.
  - lia.
  - apply count_tokens_nonneg.
Qed.

(** ** main *)

Lemma main_wrong_arity (w : world) (argv : list str) :
  length argv <> 2%nat -> main w argv = (SysExit 1, [Usage; UsageExample]).
Proof.
  intros H. unfold main.
  destruct (Nat.eqb_spec (length argv) 2) as [E|_]; [contradiction|].
  reflexivity.
Qed.

Lemma main_single_argument (w : world) (argv0 query : str) :
  main w [argv0; query]
  = if save_contexts w then
      (fst (save_context_files w
              (snd (fst (benchmark_rag_approach w query)))
              (snd (fst (benchmark_naive_approach w query)))),
       report_of w query
       ++ snd (save_context_files w
                 (snd (fst (benchmark_rag_approach w query)))
                 (snd (fst (benchmark_naive_approach w query)))))
    else (Finished, report_of w query).
Proof.
  unfold main, report_of. cbn [length Nat.eqb negb nth].
  destruct (benchmark_rag_approach w query)
    as [[rag_tokens rag_context] printed_rag].
  destruct (benchmark_naive_approach w query)
    as [[naive_tokens naive_context] printed_naive].
  cbn [fst snd].
  assert (snd (compare_results rag_tokens naive_tokens) = None) as Hnone.
  { destruct (compare_results_cases rag_tokens naive_tokens)
      as [(_ & _ & ->)|[_ ->]]; reflexivity. }
  destruct (compare_results rag_tokens naive_tokens)
    as [printed_comparison raised].
  cbn [fst snd] in *. subst raised.
  destruct (save_contexts w); [|reflexivity].
  destruct (save_context_files w rag_context naive_context); reflexivity.
Qed.

Lemma rag_prints_strategy_lines (w : world) (query : str) :
  forallb strategy_line (snd (benchmark_rag_approach w query)) = true.
Proof.
  unfold benchmark_rag_approach, run_indexer_search.
  destruct (cargo_run_indexer w query 5) as [p|e]; [|reflexivity].
  destruct (negb (returncode p =? 0)%Z); [reflexivity|].
  destruct (parse_search_output (stdout p)); reflexivity.
Qed.

Lemma notices_strategy_lines (w : world) (file_paths : list str) :
  forallb strategy_line (flat_map (notice_of w) file_paths) = true.
Proof.
  induction file_paths as [|p rest IH]; cbn [flat_map]; [reflexivity|].
  rewrite forallb_app, IH, andb_true_r. unfold notice_of.
  destruct (read_file w p); reflexivity.
Qed.

Lemma naive_prints_strategy_lines (w : world) (query : str) :
  forallb strategy_line (snd (benchmark_naive_approach w query)) = true.
Proof.
  rewrite naive_context_eq. cbv zeta. cbn [snd].
  rewrite get_file_contents_eq. cbn [snd fst].
  rewrite !forallb_app, notices_strategy_lines. reflexivity.
Qed.

Lemma save_prints_saved_lines (w : world) (rag_context naive_context : str) :
  forallb saved_line (snd (save_context_files w rag_context naive_context))
  = true.
Proof.
  unfold save_context_files.
  destruct (write_temp w (py "_rag_context.txt") rag_context);
    try reflexivity.
  destruct (write_temp w (py "_naive_context.txt") naive_context);
    reflexivity.
Qed.

(** Where a line of a run with one argument comes from. *)
Lemma main_line_origin (w : world) (argv0 query : str) (o : output) :
  In o (snd (main w [argv0; query])) ->
  strategy_line o = true \/ saved_line o = true
  \/ In o [Rule; Title; QueryLine query; Blank; ComparisonResults;
           NoteTokenization; NoteTiktoken; NoteSimilar]
  \/ In o (fst (compare_results
                  (fst (fst (benchmark_rag_approach w query)))
                  (fst (fst (benchmark_naive_approach w query))))).
Proof.
  rewrite main_single_argument.
  pose proof (rag_prints_strategy_lines w query) as Hrag.
  pose proof (naive_prints_strategy_lines w query) as Hnaive.
  pose proof (save_prints_saved_lines w
                (snd (fst (benchmark_rag_approach w query)))
                (snd (fst (benchmark_naive_approach w query)))) as Hsave.
  rewrite forallb_forall in Hrag, Hnaive, Hsave.
  assert (In o (report_of w query) ->
          strategy_line o = true
          \/ In o [Rule; Title; QueryLine query; Blank; ComparisonResults;
                   NoteTokenization; NoteTiktoken; NoteSimilar]
          \/ In o (fst (compare_results
                          (fst (fst (benchmark_rag_approach w query)))
                          (fst (fst (benchmark_naive_approach w query))))))
    as Hreport.
  { unfold report_of. rewrite !in_app_iff. cbn [In].
    specialize (Hrag o). specialize (Hnaive o). tauto. }
  destruct (save_contexts w); cbn [snd]; [rewrite in_app_iff|];
    intros H; [destruct H as [H|H]|]; try (apply Hreport in H; tauto).
  right. left. apply Hsave. exact H.
Qed.

Lemma comparison_in_main (w : world) (argv0 query : str) (o : output) :
  In o (fst (compare_results
               (fst (fst (benchmark_rag_approach w query)))
               (fst (fst (benchmark_naive_approach w query))))) ->
  In o (snd (main w [argv0; query])).
Proof.
  intros H. rewrite main_single_argument.
  assert (In o (report_of w query)) as Hreport.
  { unfold report_of. rewrite !in_app_iff. tauto. }
  destruct (save_contexts w); cbn [snd]; [apply in_or_app; left|];
    exact Hreport.
Qed.

Lemma main_prints_incomplete (w : world) (argv0 query : str) :
  In ComparisonIncomplete (snd (main w [argv0; query]))
  <-> In ComparisonIncomplete
        (fst (compare_results (fst (fst (benchmark_rag_approach w query)))
                (fst (fst (benchmark_naive_approach w query))))).
Proof.
  split; [|apply comparison_in_main].
  intros H. apply main_line_origin in H. cbn [In] in H.
  decompose [or] H; try discriminate; try contradiction. assumption.
Qed.

Lemma complete_report_not_incomplete (rag_tokens naive_tokens : Z) :
  ~ In ComparisonIncomplete (complete_report rag_tokens naive_tokens).
Proof.
  unfold complete_report.
  destruct (0 <? naive_tokens - rag_tokens)%Z; cbn [app In]; intros H;
    decompose [or] H; try discriminate; contradiction.
Qed.

(** C10: for every query and every state of the machine the naive cost is
    at least 4, the naive context starting with the header
    "Query: <query>\n\nEntire file contents:\n\n" whatever the files are;
    the retrieval cost is never negative; so the comparison of the two
    costs is the incomplete one exactly when the retrieval cost is 0, and a
    run of the script prints the incomplete-comparison line exactly then. *)
Theorem naive_cost_at_least_4 (w : world) (query : str) :
  let naive := benchmark_naive_approach w query in
  let rag_tokens := fst (fst (benchmark_rag_approach w query)) in
  (4 <= fst (fst naive))%Z
  /\ (exists rest, snd (fst naive) = naive_header query ++ rest)
  /\ (0 <= rag_tokens)%Z
  /\ (compare_results rag_tokens (fst (fst naive))
      = ([ComparisonIncomplete], None) <-> rag_tokens = 0%Z)
  /\ (forall argv0,
        In ComparisonIncomplete (snd (main w [argv0; query]))
        <-> rag_tokens = 0%Z).
Proof.
  intros naive rag_tokens. subst naive rag_tokens.
  pose proof (naive_tokens_ge_4 w query) as Hn.
  pose proof (rag_tokens_nonneg w query) as Hr.
  split; [exact Hn|].
  split.
  { rewrite naive_context_eq. cbv zeta. cbn [fst snd]. eauto. }
  split; [exact Hr|].
  destruct (compare_results_cases
              (fst (fst (benchmark_rag_approach w query)))
              (fst (fst (benchmark_naive_approach w query))))
    as [(H1 & H2 & E)|[H E]].
  - split; [|intros argv0; rewrite main_prints_incomplete]; rewrite E;
      cbn [fst]; (split; [|lia]); intros H; exfalso.
    + apply (complete_report_not_incomplete
               (fst (fst (benchmark_rag_approach w query)))
               (fst (fst (benchmark_naive_approach w query)))).
      apply (f_equal fst) in H. cbn [fst] in H. rewrite H. left. reflexivity.
    + revert H. apply complete_report_not_incomplete.
  - split; [|intros argv0; rewrite main_prints_incomplete]; rewrite E;
      cbn [fst In]; (split; [lia|]); auto.
Qed.

(** ** The exit status *)

(** C9: with one argument and SAVE_CONTEXTS=1 on a machine where the
    temporary files cannot be created, the run ends on the [OSError] of
    line 227, which nothing catches: the exit status is 1, not 0, although
    the argument count is right. *)
Lemma main_one_argument_status_1 :
  length [py "benchmark_rag.py"; py "add a command"] = 2%nat
  /\ fst (main no_tempdir_world [py "benchmark_rag.py"; py "add a command"])
     = Uncaught (OSError (py "no temporary directory"))
  /\ exit_status
       (fst (main no_tempdir_world
               [py "benchmark_rag.py"; py "add a command"]))
     <> 0%Z.
Proof.
  split; [reflexivity|]. split; [reflexivity|].
  vm_compute. discriminate.
Qed.

(** ** Strings: splitting, stripping and searching *)

Lemma lacks_app (c : char) (a b : str) :
  lacks c (a ++ b) = lacks c a && lacks c b.
Proof. apply forallb_app. Qed.

Lemma split_char_from_lacks (sep : char) (s cur : str) :
  lacks sep s = true -> split_char_from cur sep s = [rev cur ++ s].
Proof.
  revert cur; induction s as [|c s IH]; intros cur H; simpl.
  - rewrite app_nil_r. reflexivity.
  - simpl in H. apply andb_true_iff in H. destruct H as [Hc Hs].
    apply negb_true_iff in Hc. rewrite Hc, (IH (c :: cur) Hs).
    simpl. rewrite <- app_assoc. reflexivity.
Qed.

Lemma split_char_from_sep (sep : char) (a b cur : str) :
  lacks sep a = true ->
  split_char_from cur sep (a ++ sep :: b)
  = (rev cur ++ a) :: split_char sep b.
Proof.
  revert cur; induction a as [|c a IH]; intros cur H; simpl.
  - rewrite N.eqb_refl, app_nil_r. reflexivity.
  - simpl in H. apply andb_true_iff in H. destruct H as [Hc Ha].
    apply negb_true_iff in Hc. rewrite Hc, (IH (c :: cur) Ha).
    simpl. rewrite <- app_assoc. reflexivity.
Qed.

Lemma split_char_lacks (sep : char) (s : str) :
  lacks sep s = true -> split_char sep s = [s].
Proof. apply (split_char_from_lacks sep s []). Qed.

Lemma split_char_sep (sep : char) (a b : str) :
  lacks sep a = true ->
  split_char sep (a ++ sep :: b) = a :: split_char sep b.
Proof. apply (split_char_from_sep sep a b []). Qed.

(** A string splits at each separator, whatever stands on its left. *)
Lemma split_char_from_app (sep : char) (a b cur : str) :
  split_char_from cur sep (a ++ sep :: b)
  = split_char_from cur sep a ++ split_char sep b.
Proof.
  revert cur; induction a as [|c a IH]; intros cur; simpl.
  - rewrite N.eqb_refl. reflexivity.
  - destruct (c =? sep)%N; rewrite IH; reflexivity.
Qed.

Lemma split_lines_app (text rest : str) :
  split_char 10%N (text ++ nl ++ rest)
  = split_char 10%N text ++ split_char 10%N rest.
Proof. apply (split_char_from_app 10%N text rest []). Qed.

(** Splitting the joined lines gives the lines back. *)
Lemma split_char_join (sep : char) (line : str) (lines : list str) :
  Forall (fun l => lacks sep l = true) (line :: lines) ->
  split_char sep (join [sep] (line :: lines)) = line :: lines.
Proof.
  revert line; induction lines as [|next lines IH]; intros line H.
  - inversion H; subst. simpl. apply split_char_lacks. assumption.
  - inversion H; subst.
    change (join [sep] (line :: next :: lines))
      with (line ++ sep :: join [sep] (next :: lines)).
    rewrite split_char_sep by assumption.
    rewrite IH by assumption. reflexivity.
Qed.

Lemma lstrip_indent (indent : str) (c : char) (rest : str) :
  forallb isspace indent = true -> isspace c = false ->
  lstrip (indent ++ c :: rest) = c :: rest.
Proof.
  intros Hindent Hc. induction indent as [|a indent IH]; simpl.
  - rewrite Hc. reflexivity.
  - simpl in Hindent. apply andb_true_iff in Hindent.
    destruct Hindent as [Ha Hindent]. rewrite Ha. apply IH. exact Hindent.
Qed.

Lemma rstrip_cons (c : char) (rest : str) :
  isspace c = false -> rstrip (c :: rest) = c :: rstrip rest.
Proof.
  intros Hc. simpl. destruct (rstrip rest); [rewrite Hc|]; reflexivity.
Qed.

Lemma find_colon_space (p rest : str) (i : Z) :
  lacks 58%N p = true ->
  find_from i (py ": ") (p ++ py ": " ++ rest) = (i + Z.of_nat (length p))%Z.
Proof.
  change (py ": " ++ rest) with (58%N :: 32%N :: rest).
  change (py ": ") with [58%N; 32%N].
  revert i; induction p as [|c p IH]; intros i H.
  - simpl. lia.
  - simpl in H. apply andb_true_iff in H. destruct H as [Hc Hp].
    apply negb_true_iff in Hc. rewrite N.eqb_sym in Hc.
    change (find_from i [58%N; 32%N] ((c :: p) ++ 58%N :: 32%N :: rest))
      with (if (58 =? c)%N && startswith [32%N] (p ++ 58%N :: 32%N :: rest)
            then i
            else find_from (i + 1) [58%N; 32%N] (p ++ 58%N :: 32%N :: rest)).
    rewrite Hc. cbn [andb].
    rewrite (IH (i + 1)%Z Hp). cbn [length]. lia.
Qed.

Lemma slice_from_code (p rest : str) :
  slice_from (Z.of_nat (length p) + 2) (p ++ py ": " ++ rest) = rest.
Proof.
  unfold slice_from.
  replace (Z.to_nat (Z.of_nat (length p) + 2)) with (length p + 2)%nat
    by lia.
  induction p as [|c p IH]; [reflexivity|exact IH].
Qed.

Lemma isspace_lacks (c : char) (s : str) :
  isspace c = false -> forallb isspace s = true -> lacks c s = true.
Proof.
  intros Hc Hs. unfold lacks. rewrite forallb_forall in *.
  intros x Hx. apply negb_true_iff.
  destruct (N.eqb_spec x c) as [->|]; [|reflexivity].
  rewrite (Hs c Hx) in Hc. discriminate Hc.
Qed.

Lemma is_rank_cases (c : char) :
  is_rank c = true ->
  c = 49%N \/ c = 50%N \/ c = 51%N \/ c = 52%N \/ c = 53%N.
Proof.
  unfold is_rank. rewrite andb_true_iff, !N.leb_le. lia.
Qed.

Lemma starts_with_rank_header (indent : str) (c : char) (rest : str) :
  forallb isspace indent = true -> is_rank c = true ->
  starts_with_rank (indent ++ c :: 46%N :: rest) = true.
Proof.
  intros Hindent Hc. unfold starts_with_rank, strip.
  apply is_rank_cases in Hc.
  destruct Hc as [-> | [-> | [-> | [-> | ->]]]];
    rewrite (lstrip_indent indent _ _ Hindent) by reflexivity;
    rewrite !rstrip_cons by reflexivity; reflexivity.
Qed.

Lemma strip_Lines (indent rest : str) :
  forallb isspace indent = true ->
  strip (indent ++ py "Lines" ++ rest) = py "Lines" ++ rstrip rest.
Proof.
  intros Hindent. unfold strip.
  change (py "Lines" ++ rest)
    with (76%N :: 105%N :: 110%N :: 101%N :: 115%N :: rest).
  rewrite (lstrip_indent indent _ _ Hindent) by reflexivity.
  rewrite !rstrip_cons by reflexivity. reflexivity.
Qed.

(** ** The search output and its parser *)

Lemma well_formed_parts (e : entry) :
  well_formed e = true ->
  (forallb isspace (entry_indent e) = true /\ is_rank (entry_rank e) = true)
  /\ (lacks quote (entry_lead e) = true /\ lacks quote (entry_name e) = true
      /\ lacks quote (entry_tail e) = true)
  /\ (contains (py "Score:") (header_line e) = true
      /\ contains (py "in ") (header_line e) = true)
  /\ (forallb isspace (body_indent e) = true
      /\ lacks 58%N (body_range e) = true)
  /\ (lacks 10%N (header_line e) = true /\ lacks 10%N (body_line e) = true).
Proof.
  unfold well_formed. rewrite !andb_true_iff. tauto.
Qed.

Lemma split_header_line (e : entry) :
  well_formed e = true ->
  split_char quote (header_line e)
  = [entry_indent e ++ entry_rank e :: 46%N :: entry_lead e;
     entry_name e; entry_tail e].
Proof.
  intros H. apply well_formed_parts in H.
  destruct H as ((Hindent & Hrank) & (Hlead & Hname & Htail) & _).
  assert (lacks quote (entry_indent e ++ entry_rank e :: 46%N :: entry_lead e)
          = true) as Hpre.
  { rewrite lacks_app. apply andb_true_iff. split.
    - apply isspace_lacks; [reflexivity|exact Hindent].
    - apply is_rank_cases in Hrank.
      destruct Hrank as [-> | [-> | [-> | [-> | ->]]]]; exact Hlead. }
  replace (header_line e)
    with ((entry_indent e ++ entry_rank e :: 46%N :: entry_lead e)
          ++ quote :: entry_name e ++ quote :: entry_tail e)
    by (unfold header_line; rewrite <- app_assoc; reflexivity).
  rewrite (split_char_sep quote _ _ Hpre).
  rewrite (split_char_sep quote _ _ Hname).
  rewrite (split_char_lacks quote _ Htail). reflexivity.
Qed.

Lemma parse_header_line (e : entry) (chunks : list chunk)
  (current_chunk : option chunk) :
  well_formed e = true ->
  parse_line (chunks, current_chunk) (header_line e)
  = (chunks, Some {| chunk_name := entry_name e;
                     chunk_file := entry_tail e;
                     chunk_code := [] |}).
Proof.
  intros H. pose proof (split_header_line e H) as Hsplit.
  apply well_formed_parts in H.
  destruct H as ((Hindent & Hrank) & _ & (Hscore & Hin) & _).
  unfold parse_line. rewrite Hsplit, Hscore, Hin.
  unfold header_line at 1.
  rewrite (starts_with_rank_header _ _ _ Hindent Hrank). reflexivity.
Qed.

Lemma parse_body_line (e : entry) (chunks : list chunk) (c : chunk) :
  well_formed e = true ->
  parse_line (chunks, Some c) (body_line e)
  = (chunks ++ [{| chunk_name := chunk_name c;
                   chunk_file := chunk_file c;
                   chunk_code := entry_code e |}], None).
Proof.
  intros H. apply well_formed_parts in H.
  destruct H as (_ & _ & _ & (Hindent & Hrange) & _).
  assert (lacks 58%N (body_indent e ++ py "Lines" ++ body_range e) = true)
    as Hpre.
  { rewrite !lacks_app, Hrange.
    change (lacks 58%N (py "Lines")) with true. rewrite !andb_true_r.
    apply isspace_lacks; [reflexivity|exact Hindent]. }
  assert (body_line e
          = (body_indent e ++ py "Lines" ++ body_range e)
            ++ py ": " ++ entry_code e) as Hline.
  { unfold body_line. rewrite <- !app_assoc. reflexivity. }
  pose proof (strip_Lines (body_indent e)
                (body_range e ++ py ": " ++ entry_code e) Hindent) as Hstrip.
  fold (body_line e) in Hstrip.
  unfold parse_line, starts_with_rank. rewrite Hstrip.
  change (startswith (py "1.") (py "Lines" ++ _)) with false.
  change (startswith (py "2.") (py "Lines" ++ _)) with false.
  change (startswith (py "3.") (py "Lines" ++ _)) with false.
  change (startswith (py "4.") (py "Lines" ++ _)) with false.
  change (startswith (py "5.") (py "Lines" ++ _)) with false.
  cbn [orb]. rewrite startswith_app.
  rewrite Hline. unfold find. rewrite (find_colon_space _ _ 0%Z Hpre).
  rewrite Z.add_0_l, slice_from_code.
  destruct (Z.gtb_spec
              (Z.of_nat (length (body_indent e ++ py "Lines" ++ body_range e))
               + 2) 1) as [_|Hle]; [reflexivity|lia].
Qed.

Lemma parse_stray_line (st : parser_state) (line : str) :
  header_shape line = false -> body_shape line = false ->
  parse_line st line = st.
Proof.
  unfold header_shape, body_shape, parse_line.
  destruct st as [chunks current_chunk].
  destruct (starts_with_rank line); cbn [negb andb].
  - destruct (contains (py "Score:") line); cbn [andb]; [|reflexivity].
    intros -> _. reflexivity.
  - intros _.
    destruct (startswith (py "Lines") (strip line)); cbn [andb];
      [|reflexivity].
    intros ->. destruct current_chunk; reflexivity.
Qed.

Lemma parse_line_extends (st : parser_state) (line : str) :
  exists more, fst (parse_line st line) = fst st ++ more.
Proof.
  destruct st as [chunks current_chunk]. unfold parse_line.
  repeat match goal with
         | |- context [if ?b then _ else _] => destruct b
         | |- context [match ?o with Some _ => _ | None => _ end] =>
             destruct o
         end;
    cbn [fst]; first [exists []; rewrite app_nil_r; reflexivity
                     |eexists; reflexivity].
Qed.

Lemma fold_parse_line_extends (lines : list str) (st : parser_state) :
  exists more, fst (fold_left parse_line lines st) = fst st ++ more.
Proof.
  revert st; induction lines as [|line lines IH]; intros st; cbn [fold_left].
  - exists []. rewrite app_nil_r. reflexivity.
  - destruct (IH (parse_line st line)) as [more2 ->].
    destruct (parse_line_extends st line) as [more1 ->].
    exists (more1 ++ more2). rewrite app_assoc. reflexivity.
Qed.

Lemma parse_lines_prefix (lines1 lines2 : list str) :
  exists more, parse_lines (lines1 ++ lines2) = parse_lines lines1 ++ more.
Proof.
  unfold parse_lines. rewrite fold_left_app.
  apply fold_parse_line_extends.
Qed.

Lemma parse_lines_stray (lines1 lines2 : list str) (line : str) :
  header_shape line = false -> body_shape line = false ->
  parse_lines (lines1 ++ line :: lines2) = parse_lines (lines1 ++ lines2).
Proof.
  intros Hh Hb. unfold parse_lines. rewrite !fold_left_app.
  cbn [fold_left]. rewrite (parse_stray_line _ line Hh Hb). reflexivity.
Qed.

Lemma fold_block_lines (items : list item) (chunks : list chunk) :
  Forall (fun i => item_ok i = true) items ->
  fold_left parse_line (block_lines items) (chunks, None)
  = (chunks ++ flat_map item_fragments items, None).
Proof.
  intros H. revert chunks.
  induction H as [|i items Hi _ IH]; intros chunks.
  - cbn. rewrite app_nil_r. reflexivity.
  - unfold block_lines. cbn [flat_map]. rewrite fold_left_app.
    fold (block_lines items).
    destruct i as [e|line]; cbn [item_ok item_lines item_fragments] in *.
    + cbn [fold_left].
      rewrite (parse_header_line e chunks None Hi).
      rewrite (parse_body_line e chunks _ Hi). cbn [chunk_name chunk_file].
      fold (fragment e). rewrite IH, <- app_assoc. reflexivity.
    + apply andb_true_iff in Hi. destruct Hi as [Hi _].
      apply andb_true_iff in Hi. destruct Hi as [Hh Hb].
      apply negb_true_iff in Hh, Hb.
      cbn [fold_left]. rewrite (parse_stray_line _ line Hh Hb).
      rewrite IH. reflexivity.
Qed.

Lemma block_lines_no_newline (items : list item) :
  Forall (fun i => item_ok i = true) items ->
  Forall (fun l => lacks 10%N l = true) (block_lines items).
Proof.
  intros H. induction H as [|i items Hi _ IH]; [constructor|].
  unfold block_lines. cbn [flat_map]. apply Forall_app. split; [|exact IH].
  destruct i as [e|line]; cbn [item_ok item_lines] in *.
  - apply well_formed_parts in Hi.
    destruct Hi as (_ & _ & _ & _ & Hh & Hb). repeat constructor; assumption.
  - apply andb_true_iff in Hi. destruct Hi as [_ Hl].
    repeat constructor; assumption.
Qed.

Lemma parse_search_output_join (lines : list str) :
  Forall (fun l => lacks 10%N l = true) lines ->
  parse_search_output (join nl lines) = parse_lines lines.
Proof.
  intros H. unfold parse_search_output.
  destruct lines as [|line lines]; [reflexivity|].
  rewrite (split_char_join 10%N line lines H
           : split_char 10%N (join nl (line :: lines)) = line :: lines).
  reflexivity.
Qed.

(** X21: cutting a search output at the end of a line loses no chunk of the
    part that is kept: the chunks of a text are a prefix of the chunks of
    the text followed by a newline and anything else. *)
Lemma parse_search_output_prefix (text rest : str) :
  exists more,
    parse_search_output (text ++ nl ++ rest)
    = parse_search_output text ++ more.
Proof.
  unfold parse_search_output. rewrite split_lines_app.
  apply parse_lines_prefix.
Qed.

(** X22: a line that has neither the shape of a header nor that of a body
    changes nothing, wherever it stands: the output parses as it does
    without the line. *)
Lemma parse_search_output_stray (before line after : str) :
  header_shape line = false -> body_shape line = false ->
  lacks 10%N line = true ->
  parse_search_output (before ++ nl ++ line ++ nl ++ after)
  = parse_search_output (before ++ nl ++ after).
Proof.
  intros Hh Hb Hl. unfold parse_search_output.
  rewrite !split_lines_app, (split_char_lacks 10%N line Hl).
  apply (parse_lines_stray (split_char 10%N before)
           (split_char 10%N after) line Hh Hb).
Qed.

Lemma parse_block_text (items : list item) :
  Forall (fun i => item_ok i = true) items ->
  parse_search_output (block_text items) = flat_map item_fragments items.
Proof.
  intros H. unfold block_text.
  rewrite (parse_search_output_join _ (block_lines_no_newline items H)).
  unfold parse_lines. rewrite (fold_block_lines items [] H). reflexivity.
Qed.

Lemma flat_map_Permutation {A B : Type} (f : A -> list B) (l l' : list A) :
  Permutation l l' -> Permutation (flat_map f l) (flat_map f l').
Proof.
  induction 1; cbn [flat_map].
  - constructor.
  - apply Permutation_app_head. assumption.
  - rewrite !app_assoc. apply Permutation_app_tail. apply Permutation_app_comm.
  - eapply Permutation_trans; eassumption.
Qed.

(** C4: on a well-formed block of five entries the parser finds the five
    names in order, but the file field of each chunk (line 60) is the whole
    rest of the header line after the name, score included, not the source
    file the line names after "in ". *)
Lemma parse_sample_file_fields :
  block_text (map Ranked sample_entries) = join nl sample_lines
  /\ map chunk_name (parse_search_output (join nl sample_lines))
     = [py "main"; py "Cli"; py "chunk_file"; py "embed"; py "search"]
  /\ map chunk_file (parse_search_output (join nl sample_lines))
     = [py " (Score: 0.91) in src/main.rs";
        py " (Score: 0.88) in src/bin/indexer.rs";
        py " (Score: 0.80) in src/index/chunker.rs";
        py " (Score: 0.75) in src/index/embedder.rs";
        py " (Score: 0.71) in src/index/vector_store.rs"]
  /\ map chunk_file (parse_search_output (join nl sample_lines))
     <> [py "src/main.rs"; py "src/bin/indexer.rs";
         py "src/index/chunker.rs"; py "src/index/embedder.rs";
         py "src/index/vector_store.rs"].
Proof.
  split; [reflexivity|]. split; [reflexivity|]. split; [reflexivity|].
  vm_compute. discriminate.
Qed.

(** * Further properties *)

(** ** The cost of concatenated texts *)

Lemma run_starts_app (x y : str) (after_space : bool) :
  run_starts after_space (x ++ y)
  = (run_starts after_space x
     + run_starts (ends_in_space after_space x) y)%nat.
Proof.
  revert after_space; induction x as [|c x IH]; intros after_space.
  - reflexivity.
  - cbn [app run_starts ends_in_space fold_left].
    rewrite IH. unfold ends_in_space. lia.
Qed.

Lemma run_starts_after_word (y : str) :
  (run_starts false y <= run_starts true y <= S (run_starts false y))%nat.
Proof.
  destruct y as [|c y]; cbn [run_starts]; [lia|].
  destruct (isspace c); cbn [negb andb]; lia.
Qed.

Lemma run_starts_open_end (x : str) :
  ends_in_space true x = false -> (1 <= run_starts true x)%nat.
Proof.
  induction x as [|c x IH]; [discriminate|].
  cbn [ends_in_space fold_left run_starts].
  destruct (isspace c) eqn:Hc; cbn [negb andb]; [|lia].
  intros H. apply IH in H. lia.
Qed.

Lemma count_tokens_run_starts (text : str) :
  count_tokens text = Z.of_nat (run_starts true text).
Proof.
  unfold count_tokens, split. rewrite length_split_from. reflexivity.
Qed.

(** X1: gluing two texts merges at most one token: the cost of [x ++ y]
    lies between the sum of the two costs minus one and their sum, and it is
    at least each of the two costs. *)
Theorem count_tokens_concat_bounds (x y : str) :
  (count_tokens x + count_tokens y - 1 <= count_tokens (x ++ y)
   <= count_tokens x + count_tokens y)%Z
  /\ (count_tokens x <= count_tokens (x ++ y))%Z
  /\ (count_tokens y <= count_tokens (x ++ y))%Z.
Proof.
  rewrite !count_tokens_run_starts, run_starts_app.
  pose proof (run_starts_after_word y) as Hy.
  destruct (ends_in_space true x) eqn:Hend.
  - lia.
  - pose proof (run_starts_open_end x Hend). lia.
Qed.

(** X2: at a whitespace character the cost is additive: the cost of
    [x ++ c :: y] is the cost of [x] plus the cost of [y]; so is the cost of
    two texts glued when the first ends or the second starts with
    whitespace. *)
Theorem count_tokens_additive_at_space (x y : str) (c : char) :
  isspace c = true ->
  count_tokens (x ++ c :: y) = (count_tokens x + count_tokens y)%Z
  /\ count_tokens ((x ++ [c]) ++ y) = (count_tokens (x ++ [c]) + count_tokens y)%Z
  /\ count_tokens (x ++ c :: y) = (count_tokens x + count_tokens (c :: y))%Z.
Proof.
  intros Hc.
  assert (count_tokens (c :: y) = count_tokens y) as Hcy.
  { apply (count_tokens_app_space [] y c Hc). }
  assert (count_tokens (x ++ [c]) = count_tokens x) as Hxc.
  { rewrite (count_tokens_app_space x [] c Hc). change (count_tokens []) with 0%Z.
    lia. }
  split; [apply count_tokens_app_space; exact Hc|].
  split.
  - rewrite <- app_assoc. cbn [app]. rewrite Hxc.
    apply count_tokens_app_space; exact Hc.
  - rewrite Hcy. apply count_tokens_app_space; exact Hc.
Qed.

(** The instance of X2 at "ab", a newline and "cd ef". *)
Lemma count_tokens_additive_at_newline :
  count_tokens (py "ab" ++ 10%N :: py "cd ef") = 3%Z.
Proof.
  destruct (count_tokens_additive_at_space (py "ab") (py "cd ef") 10%N eq_refl)
    as [H _].
  exact H.
Defined.

(** ** The retrieval context and its cost *)

Lemma run_starts_word (w : str) (after_space : bool) :
  forallb (fun c => negb (isspace c)) w = true ->
  run_starts after_space w
  = (if after_space then (if is_nil w then 0 else 1) else 0)%nat.
Proof.
  revert after_space; induction w as [|c w IH]; intros after_space H.
  - destruct after_space; reflexivity.
  - cbn [forallb] in H. apply andb_true_iff in H. destruct H as [Hc Hw].
    cbn [run_starts is_nil]. rewrite Hc. apply negb_true_iff in Hc.
    rewrite Hc, (IH false Hw). destruct after_space; reflexivity.
Qed.

Lemma count_tokens_word (w : str) :
  w <> [] -> forallb (fun c => negb (isspace c)) w = true ->
  count_tokens w = 1%Z.
Proof.
  intros Hne Hw. rewrite count_tokens_run_starts, (run_starts_word w true Hw).
  destruct w; [contradiction|reflexivity].
Qed.

Lemma digits_no_space (d : Decimal.uint) :
  forallb (fun c => negb (isspace c)) (py (NilEmpty.string_of_uint d)) = true.
Proof.
  induction d; cbn [NilEmpty.string_of_uint]; [reflexivity|..];
    unfold py in *; cbn [list_ascii_of_string map forallb];
    rewrite IHd; reflexivity.
Qed.

Lemma str_of_nat_no_space (n : nat) :
  forallb (fun c => negb (isspace c)) (str_of_nat n) = true.
Proof.
  unfold str_of_nat, NilZero.string_of_uint.
  destruct (Nat.to_uint n); try apply digits_no_space. reflexivity.
Qed.

Lemma count_tokens_rank (n : nat) :
  count_tokens (str_of_nat n ++ [58%N]) = 1%Z.
Proof.
  apply count_tokens_word.
  - destruct (str_of_nat n); discriminate.
  - rewrite forallb_app, str_of_nat_no_space. reflexivity.
Qed.

Lemma add_chunk_fold (chunks : list chunk) (context : str) (i : nat) :
  fst (fold_left add_chunk chunks (context, i))
  = context ++ chunk_blocks i chunks.
Proof.
  revert context i.
  induction chunks as [|c rest IH]; intros context i;
    cbn [fold_left chunk_blocks].
  - rewrite app_nil_r. reflexivity.
  - replace (add_chunk (context, i) c)
      with (context ++ chunk_block i c, S i) by reflexivity.
    rewrite IH, <- app_assoc. reflexivity.
Qed.

Lemma rag_context_of_eq (query : str) (chunks : list chunk) :
  rag_context_of query chunks = rag_header query ++ chunk_blocks 1 chunks.
Proof. unfold rag_context_of. apply add_chunk_fold. Qed.

Lemma count_tokens_rag_header (query rest : str) :
  count_tokens (rag_header query ++ rest)
  = (4 + count_tokens query + count_tokens rest)%Z.
Proof.
  unfold rag_header. rewrite <- !app_assoc.
  change (py "Query: " ++ query ++ nl ++ nl ++ py "Relevant code chunks:"
          ++ nl ++ nl ++ rest)
    with (py "Query:" ++ 32%N ::
          (query ++ 10%N ::
           ([] ++ 10%N ::
            (py "Relevant" ++ 32%N ::
             (py "code" ++ 32%N ::
              (py "chunks:" ++ 10%N :: ([] ++ 10%N :: rest))))))).
  rewrite !count_tokens_app_space by reflexivity.
  change (count_tokens (py "Query:")) with 1%Z.
  change (count_tokens (py "Relevant")) with 1%Z.
  change (count_tokens (py "code")) with 1%Z.
  change (count_tokens (py "chunks:")) with 1%Z.
  change (count_tokens []) with 0%Z.
  lia.
Qed.

Lemma count_tokens_chunk_block (i : nat) (c : chunk) (rest : str) :
  count_tokens (chunk_block i c ++ rest)
  = (chunk_cost c + count_tokens rest)%Z.
Proof.
  assert (chunk_block i c ++ rest
          = py "---" ++ 32%N ::
            (py "Chunk" ++ 32%N ::
             ((str_of_nat i ++ [58%N]) ++ 32%N ::
              (chunk_name c ++ 32%N ::
               (py "from" ++ 32%N ::
                (chunk_file c ++ 32%N ::
                 (py "---" ++ 10%N ::
                  (chunk_code c ++ 10%N :: ([] ++ 10%N :: rest)))))))))
    as ->.
  { unfold chunk_block. rewrite <- !app_assoc. reflexivity. }
  pose proof (count_tokens_rank i) as Hrank.
  set (rank := str_of_nat i ++ [58%N]) in *.
  rewrite !count_tokens_app_space by reflexivity.
  rewrite Hrank.
  change (count_tokens (py "---")) with 1%Z.
  change (count_tokens (py "Chunk")) with 1%Z.
  change (count_tokens (py "from")) with 1%Z.
  change (count_tokens []) with 0%Z.
  unfold chunk_cost. lia.
Qed.

Lemma count_tokens_chunk_blocks (chunks : list chunk) (i : nat) :
  count_tokens (chunk_blocks i chunks) = sum_Z (map chunk_cost chunks).
Proof.
  revert i; induction chunks as [|c rest IH]; intros i;
    cbn [chunk_blocks map sum_Z fold_right]; [reflexivity|].
  rewrite count_tokens_chunk_block, IH. reflexivity.
Qed.

Lemma chunk_cost_ge_5 (c : chunk) : (5 <= chunk_cost c)%Z.
Proof.
  unfold chunk_cost.
  pose proof (count_tokens_nonneg (chunk_name c)).
  pose proof (count_tokens_nonneg (chunk_file c)).
  pose proof (count_tokens_nonneg (chunk_code c)). lia.
Qed.

Lemma sum_chunk_costs_ge (chunks : list chunk) :
  (5 * Z.of_nat (length chunks) <= sum_Z (map chunk_cost chunks))%Z.
Proof.
  induction chunks as [|c rest IH]; cbn [map sum_Z fold_right length];
    [lia|].
  pose proof (chunk_cost_ge_5 c). fold (sum_Z (map chunk_cost rest)). lia.
Qed.

(** X3: the retrieval context is the header
    "Query: <query>\n\nRelevant code chunks:\n\n" followed by one block per
    chunk, numbered from 1, and its cost is 4, plus the cost of the query,
    plus for each chunk 5 and the costs of its name, its file field and its
    code; so [n] chunks cost at least [4 + 5 n] tokens. *)
Theorem rag_context_cost (query : str) (chunks : list chunk) :
  rag_context_of query chunks = rag_header query ++ chunk_blocks 1 chunks
  /\ count_tokens (rag_context_of query chunks)
     = (4 + count_tokens query + sum_Z (map chunk_cost chunks))%Z
  /\ (4 + 5 * Z.of_nat (length chunks)
      <= count_tokens (rag_context_of query chunks))%Z.
Proof.
  rewrite rag_context_of_eq, count_tokens_rag_header,
    count_tokens_chunk_blocks.
  pose proof (sum_chunk_costs_ge chunks).
  pose proof (count_tokens_nonneg query).
  repeat split; try reflexivity; lia.
Qed.

Lemma rag_context_cost_ge (query : str) (chunks : list chunk) :
  (4 + 5 * Z.of_nat (length chunks)
   <= count_tokens (rag_context_of query chunks))%Z.
Proof.
  rewrite rag_context_of_eq, count_tokens_rag_header,
    count_tokens_chunk_blocks.
  pose proof (sum_chunk_costs_ge chunks).
  pose proof (count_tokens_nonneg query). lia.
Qed.

Lemma incomplete_in_comparison (rag_tokens naive_tokens : Z) :
  In ComparisonIncomplete (fst (compare_results rag_tokens naive_tokens))
  <-> (rag_tokens <= 0)%Z \/ (naive_tokens <= 0)%Z.
Proof.
  destruct (compare_results_cases rag_tokens naive_tokens)
    as [(Hr & Hn & ->)|[H ->]]; cbn [fst].
  - split; [|lia]. intros Hin. exfalso.
    revert Hin. apply complete_report_not_incomplete.
  - split; [intros _; exact H|intros _; left; reflexivity].
Qed.

(** X4: the retrieval cost is 0 exactly when the search gave no chunk, and
    at least 9 otherwise; so a run with one argument prints the
    incomplete-comparison line exactly when no chunk was parsed from the
    search output (or the search failed). *)
Theorem comparison_incomplete_iff_no_chunk (w : world) (query argv0 : str) :
  (fst (fst (benchmark_rag_approach w query)) = 0%Z
   <-> fst (run_indexer_search w query 5) = [])
  /\ (fst (run_indexer_search w query 5) <> [] ->
      (9 <= fst (fst (benchmark_rag_approach w query)))%Z)
  /\ (In ComparisonIncomplete (snd (main w [argv0; query]))
      <-> fst (run_indexer_search w query 5) = []).
Proof.
  assert (fst (fst (benchmark_rag_approach w query)) = 0%Z
          <-> fst (run_indexer_search w query 5) = []) as Hzero.
  { unfold benchmark_rag_approach.
    destruct (run_indexer_search w query 5) as [[|c chunks] printed];
      cbn [fst].
    - split; reflexivity.
    - pose proof (rag_context_cost_ge query (c :: chunks)) as H.
      cbn [length] in H. split; [lia|discriminate]. }
  split; [exact Hzero|]. split.
  - unfold benchmark_rag_approach.
    destruct (run_indexer_search w query 5) as [[|c chunks] printed];
      cbn [fst]; [congruence|].
    intros _. pose proof (rag_context_cost_ge query (c :: chunks)) as H.
    cbn [length] in H. lia.
  - rewrite main_prints_incomplete, incomplete_in_comparison, <- Hzero.
    pose proof (naive_tokens_ge_4 w query).
    pose proof (rag_tokens_nonneg w query). lia.
Qed.

(** ** The naive context and its printed figures *)

Lemma add_file_total (file_contents : list file_info) (context : str) (n : Z) :
  snd (fold_left add_file file_contents (context, n))
  = (n + sum_Z (map info_size file_contents))%Z.
Proof.
  revert context n.
  induction file_contents as [|fi rest IH]; intros context n;
    cbn [fold_left map sum_Z fold_right snd].
  - lia.
  - replace (add_file (context, n) fi)
      with (context ++ file_block fi, (n + info_size fi)%Z) by reflexivity.
    rewrite IH. fold (sum_Z (map info_size rest)). lia.
Qed.

Lemma count_tokens_file_block (fi : file_info) (rest : str) :
  count_tokens (file_block fi ++ rest)
  = (file_cost fi + count_tokens rest)%Z.
Proof.
  assert (file_block fi ++ rest
          = py "---" ++ 32%N ::
            (py "File:" ++ 32%N ::
             (info_file fi ++ 32%N ::
              (py "---" ++ 10%N ::
               (info_content fi ++ 10%N :: ([] ++ 10%N :: rest))))))
    as ->.
  { unfold file_block. rewrite <- !app_assoc. reflexivity. }
  rewrite !count_tokens_app_space by reflexivity.
  change (count_tokens (py "---")) with 1%Z.
  change (count_tokens (py "File:")) with 1%Z.
  change (count_tokens []) with 0%Z.
  unfold file_cost. lia.
Qed.

Lemma count_tokens_file_blocks (file_contents : list file_info) :
  count_tokens (flat_map file_block file_contents)
  = sum_Z (map file_cost file_contents).
Proof.
  induction file_contents as [|fi rest IH];
    cbn [flat_map map sum_Z fold_right]; [reflexivity|].
  rewrite count_tokens_file_block, IH. reflexivity.
Qed.

Lemma entries_sizes (w : world) (file_paths : list str) :
  map info_size (flat_map (entry_of w) file_paths)
  = map (fun fi => Z.of_nat (length (info_content fi)))
      (flat_map (entry_of w) file_paths).
Proof.
  apply map_ext_in. intros fi Hin.
  pose proof (entries_content w file_paths) as H.
  rewrite Forall_forall in H. apply (H fi Hin).
Qed.

(** X5: the naive strategy returns the header followed by one block per
    readable candidate, in candidate order; its cost is 4, plus the cost of
    the query, plus for each readable file 3 and the costs of its path and
    of its content; and the figures it prints are the number of readable
    candidates, the total length of their contents and that cost. *)
Theorem naive_context_cost (w : world) (query : str) :
  let file_contents := fst (get_file_contents w (relevant_files query)) in
  let cost :=
    (4 + count_tokens query + sum_Z (map file_cost file_contents))%Z in
  map info_file file_contents = filter (readable w) (relevant_files query)
  /\ fst (benchmark_naive_approach w query)
     = (cost, naive_header query ++ flat_map file_block file_contents)
  /\ snd (benchmark_naive_approach w query)
     = [NaiveIncluding] ++ snd (get_file_contents w (relevant_files query))
       ++ [NaiveIncluded
             (Z.of_nat (length (filter (readable w) (relevant_files query))));
           TotalFileSize
             (sum_Z (map (fun fi => Z.of_nat (length (info_content fi)))
                       file_contents));
           NaiveContextTokens cost].
Proof.
  intros file_contents cost. subst file_contents cost.
  rewrite naive_context_eq. cbv zeta. cbn [fst snd].
  rewrite count_tokens_naive_header, count_tokens_file_blocks, add_file_total.
  rewrite get_file_contents_eq. cbn [fst snd].
  rewrite <- entries_sizes, <- (entries_files w (relevant_files query)),
    length_map.
  repeat split.
Qed.

(** ** The parser, line by line *)

Lemma parse_header_shaped (st : parser_state) (line : str) :
  header_shape line = true ->
  parse_line st line = (fst st, Some (header_chunk line)).
Proof.
  unfold header_shape, parse_line, header_chunk.
  destruct st as [chunks current_chunk]. rewrite !andb_true_iff.
  intros [[-> ->] ->]. reflexivity.
Qed.

Lemma parse_body_shaped (chunks : list chunk) (c : chunk) (line : str) :
  body_shape line = true ->
  parse_line (chunks, Some c) line
  = (chunks ++ [with_code c (body_code line)], None).
Proof.
  unfold body_shape, parse_line, with_code, body_code.
  rewrite !andb_true_iff, negb_true_iff.
  intros [[-> ->] ->]. reflexivity.
Qed.

Lemma parse_body_no_pending (chunks : list chunk) (line : str) :
  header_shape line = false ->
  parse_line (chunks, None) line = (chunks, None).
Proof.
  unfold header_shape, parse_line.
  destruct (starts_with_rank line); cbn [andb].
  - destruct (contains (py "Score:") line); cbn [andb]; [|reflexivity].
    intros ->. reflexivity.
  - intros _. destruct (startswith (py "Lines") (strip line)); reflexivity.
Qed.

Lemma header_not_body (line : str) :
  header_shape line = true -> body_shape line = false.
Proof.
  unfold header_shape, body_shape. rewrite !andb_true_iff.
  intros [[-> _] _]. reflexivity.
Qed.

(** What one line does to the parser. *)
Lemma parse_line_cases (chunks : list chunk) (current_chunk : option chunk)
  (line : str) :
  (header_shape line = true
   /\ parse_line (chunks, current_chunk) line
      = (chunks, Some (header_chunk line)))
  \/ (body_shape line = true
      /\ exists c, current_chunk = Some c
                   /\ parse_line (chunks, current_chunk) line
                      = (chunks ++ [with_code c (body_code line)], None))
  \/ parse_line (chunks, current_chunk) line = (chunks, current_chunk).
Proof.
  destruct (header_shape line) eqn:Hh.
  - left. split; [reflexivity|].
    apply (parse_header_shaped (chunks, current_chunk) line Hh).
  - right. destruct (body_shape line) eqn:Hb.
    + destruct current_chunk as [c|].
      * left. split; [reflexivity|]. exists c. split; [reflexivity|].
        apply parse_body_shaped. exact Hb.
      * right. apply parse_body_no_pending. exact Hh.
    + right. apply parse_stray_line; assumption.
Qed.

Lemma parse_count_invariant (lines : list str) (chunks : list chunk)
  (current_chunk : option chunk) :
  let st := fold_left parse_line lines (chunks, current_chunk) in
  (length (fst st) + pending_count (snd st)
   <= length chunks + pending_count current_chunk
      + length (filter header_shape lines))%nat
  /\ (length (fst st)
      <= length chunks + length (filter body_shape lines))%nat.
Proof.
  revert chunks current_chunk.
  induction lines as [|line lines IH]; intros chunks current_chunk;
    cbn [fold_left filter].
  - cbn [fst snd length]. lia.
  - destruct (parse_line_cases chunks current_chunk line)
      as [[Hh ->] | [[Hb (c & -> & ->)] | ->]].
    + specialize (IH chunks (Some (header_chunk line))). cbv zeta in IH.
      rewrite Hh. rewrite (header_not_body line Hh).
      cbn [pending_count length] in *.
      destruct current_chunk; cbn [pending_count]; lia.
    + specialize (IH (chunks ++ [with_code c (body_code line)]) None).
      cbv zeta in IH. rewrite Hb. rewrite length_app in IH.
      cbn [pending_count length] in *.
      destruct (header_shape line); cbn [length]; lia.
    + specialize (IH chunks current_chunk). cbv zeta in IH.
      destruct (header_shape line), (body_shape line); cbn [length]; lia.
Qed.

(** X6: every chunk uses up one header line and one body line: the parser
    never returns more chunks than the output has lines of the header shape
    (a rank "1." to "5.", "Score:" and a quote), nor more than it has lines
    of the body shape ("Lines" and ": "). *)
Theorem parse_chunk_count (out : str) :
  (length (parse_search_output out)
   <= length (filter header_shape (lines_of out)))%nat
  /\ (length (parse_search_output out)
      <= length (filter body_shape (lines_of out)))%nat.
Proof.
  unfold parse_search_output, parse_lines, lines_of.
  pose proof (parse_count_invariant (split_char 10%N out) [] None) as H.
  cbv zeta in H. cbn [length pending_count] in H. lia.
Qed.

Lemma chunk_from_incl (lines lines' : list str) (c : chunk) :
  incl lines lines' -> chunk_from lines c -> chunk_from lines' c.
Proof.
  intros Hincl (header & body & Hh & Hb & H).
  exists header, body. auto.
Qed.

Lemma pending_from_incl (lines lines' : list str) (cur : option chunk) :
  incl lines lines' -> pending_from lines cur -> pending_from lines' cur.
Proof.
  intros Hincl. destruct cur as [c|]; [|trivial].
  intros (header & Hh & H). exists header. auto.
Qed.

Lemma parse_provenance_invariant (lines seen : list str)
  (chunks : list chunk) (current_chunk : option chunk) :
  Forall (chunk_from seen) chunks -> pending_from seen current_chunk ->
  let st := fold_left parse_line lines (chunks, current_chunk) in
  Forall (chunk_from (seen ++ lines)) (fst st)
  /\ pending_from (seen ++ lines) (snd st).
Proof.
  revert seen chunks current_chunk.
  induction lines as [|line lines IH]; intros seen chunks current_chunk
    Hchunks Hpending; cbn [fold_left].
  - rewrite app_nil_r. split; assumption.
  - assert (incl seen (seen ++ [line])) as Hincl
      by (apply incl_appl, incl_refl).
    assert (In line (seen ++ [line])) as Hline
      by (apply in_or_app; right; left; reflexivity).
    assert (Forall (chunk_from (seen ++ [line])) chunks) as Hchunks'.
    { revert Hchunks. apply Forall_impl. intros c.
      apply chunk_from_incl. exact Hincl. }
    replace (seen ++ line :: lines) with ((seen ++ [line]) ++ lines)
      by (rewrite <- app_assoc; reflexivity).
    destruct (parse_line_cases chunks current_chunk line)
      as [[Hh ->] | [[Hb (c & -> & ->)] | ->]]; apply IH; try assumption.
    + exists line. auto.
    + apply Forall_app. split; [exact Hchunks'|].
      constructor; [|constructor].
      destruct Hpending as (header & Hin & Hh & ->).
      exists header, line. repeat split; auto.
    + exact I.
    + apply (pending_from_incl seen); assumption.
Qed.

Lemma parse_lines_provenance (lines : list str) :
  Forall (chunk_from lines) (parse_lines lines).
Proof.
  unfold parse_lines.
  apply (parse_provenance_invariant lines [] [] None); [constructor|exact I].
Qed.

(** X7: the parser invents nothing: every chunk it returns has the name and
    the file field of a header-shaped line of the output (the second piece
    of the line cut at the quotes; the last piece, or 'unknown' when the
    line has no "in ") and the code of a body-shaped line of the output
    (the text after its first ": "). *)
Theorem parse_search_output_provenance (out : str) (c : chunk) :
  In c (parse_search_output out) ->
  exists header body,
    In header (lines_of out) /\ In body (lines_of out)
    /\ header_shape header = true /\ body_shape body = true
    /\ chunk_name c = nth 1 (split_char quote header) []
    /\ chunk_file c = (if contains (py "in ") header
                       then last (split_char quote header) []
                       else py "unknown")
    /\ chunk_code c = slice_from (find (py ": ") body + 2) body.
Proof.
  intros Hin.
  pose proof (parse_lines_provenance (lines_of out)) as H.
  rewrite Forall_forall in H.
  destruct (H c Hin) as (header & body & Hh & Hb & Hhs & Hbs & ->).
  exists header, body. repeat split; assumption.
Qed.

(** The instance of X7 at the first chunk of the sample block. *)
Lemma parse_search_output_provenance_sample :
  exists header body,
    In header (lines_of (join nl sample_lines))
    /\ In body (lines_of (join nl sample_lines))
    /\ py "main" = nth 1 (split_char quote header) []
    /\ py "fn main() {" = slice_from (find (py ": ") body + 2) body.
Proof.
  assert (In {| chunk_name := py "main";
                chunk_file := py " (Score: 0.91) in src/main.rs";
                chunk_code := py "fn main() {" |}
             (parse_search_output (join nl sample_lines))) as Hin.
  { vm_compute. left. reflexivity. }
  destruct (parse_search_output_provenance _ _ Hin)
    as (header & body & Hh & Hb & _ & _ & Hname & _ & Hcode).
  exists header, body. repeat split; assumption.
Defined.

(** X8: a header line that is followed by another header line, with no body
    line in between, is dropped: the second header replaces the pending
    chunk, and the output parses as if the first header were not there. *)
Theorem header_without_body_dropped (before header1 header2 after : str) :
  header_shape header1 = true -> header_shape header2 = true ->
  lacks 10%N header1 = true -> lacks 10%N header2 = true ->
  parse_search_output
    (before ++ nl ++ header1 ++ nl ++ header2 ++ nl ++ after)
  = parse_search_output (before ++ nl ++ header2 ++ nl ++ after).
Proof.
  intros H1 H2 Hl1 Hl2. unfold parse_search_output, parse_lines.
  rewrite !split_lines_app, (split_char_lacks 10%N header1 Hl1),
    (split_char_lacks 10%N header2 Hl2).
  rewrite !fold_left_app. cbn [fold_left].
  rewrite (parse_header_shaped _ header1 H1), !(parse_header_shaped _ header2 H2).
  reflexivity.
Qed.

(** The instance of X8: the first header of the sample block, then its
    second entry. *)
Lemma header_without_body_dropped_sample :
  parse_search_output
    ([] ++ nl ++ py "1. 'main' (Score: 0.91) in src/main.rs"
     ++ nl ++ py "2. 'Cli' (Score: 0.88) in src/bin/indexer.rs"
     ++ nl ++ py "   Lines 5-30: struct Cli {")
  = parse_search_output
      ([] ++ nl ++ py "2. 'Cli' (Score: 0.88) in src/bin/indexer.rs"
       ++ nl ++ py "   Lines 5-30: struct Cli {").
Proof.
  apply (header_without_body_dropped []
           (py "1. 'main' (Score: 0.91) in src/main.rs")
           (py "2. 'Cli' (Score: 0.88) in src/bin/indexer.rs")
           (py "   Lines 5-30: struct Cli {")); reflexivity.
Defined.

(** ** The fields of the parsed chunks *)

Lemma split_char_from_forallb (f : char -> bool) (sep : char) (s cur : str) :
  forallb f cur = true ->
  (forall c, In c s -> c <> sep -> f c = true) ->
  Forall (fun part => forallb f part = true) (split_char_from cur sep s).
Proof.
  revert cur; induction s as [|c s IH]; intros cur Hcur Hs;
    cbn [split_char_from].
  - constructor; [|constructor]. rewrite forallb_rev. exact Hcur.
  - destruct (N.eqb_spec c sep) as [->|Hne].
    + constructor; [rewrite forallb_rev; exact Hcur|].
      apply IH; [reflexivity|]. intros x Hx. apply Hs. right. exact Hx.
    + apply IH.
      * cbn [forallb]. rewrite Hcur, (Hs c (or_introl eq_refl) Hne).
        reflexivity.
      * intros x Hx. apply Hs. right. exact Hx.
Qed.

Lemma split_char_parts_lack_sep (sep : char) (s : str) :
  Forall (fun part => lacks sep part = true) (split_char sep s).
Proof.
  apply split_char_from_forallb; [reflexivity|].
  intros c _ Hne. apply negb_true_iff. apply N.eqb_neq. exact Hne.
Qed.

Lemma split_char_parts_lack (c sep : char) (s : str) :
  lacks c s = true ->
  Forall (fun part => lacks c part = true) (split_char sep s).
Proof.
  intros Hs. apply split_char_from_forallb; [reflexivity|].
  intros x Hx _. unfold lacks in Hs. rewrite forallb_forall in Hs.
  apply Hs. exact Hx.
Qed.

Lemma Forall_nth_last (P : str -> Prop) (parts : list str) (i : nat) :
  P [] -> Forall P parts -> P (nth i parts []) /\ P (last parts []).
Proof.
  intros Hnil Hparts. split.
  - revert i; induction Hparts as [|p parts Hp _ IH]; intros [|i];
      cbn [nth]; auto.
  - induction Hparts as [|p parts Hp Hps IH]; [exact Hnil|].
    destruct parts; [exact Hp|exact IH].
Qed.

Lemma lacks_skipn (c : char) (n : nat) (s : str) :
  lacks c s = true -> lacks c (skipn n s) = true.
Proof.
  revert s; induction n as [|n IH]; intros [|x s] H; cbn [skipn]; auto.
  cbn [lacks forallb] in H. apply andb_true_iff in H. apply IH, H.
Qed.

Lemma header_chunk_clean (line : str) :
  lacks 10%N line = true ->
  lacks quote (chunk_name (header_chunk line)) = true
  /\ lacks quote (chunk_file (header_chunk line)) = true
  /\ lacks 10%N (chunk_name (header_chunk line)) = true
  /\ lacks 10%N (chunk_file (header_chunk line)) = true.
Proof.
  intros Hl. unfold header_chunk. cbn [chunk_name chunk_file].
  destruct (Forall_nth_last (fun p => lacks quote p = true)
              (split_char quote line) 1 eq_refl
              (split_char_parts_lack_sep quote line)) as [Hn Hf].
  destruct (Forall_nth_last (fun p => lacks 10%N p = true)
              (split_char quote line) 1 eq_refl
              (split_char_parts_lack 10%N quote line Hl)) as [Hn' Hf'].
  destruct (contains (py "in ") line); repeat split; auto.
Qed.

(** X9: the fields of the chunks are clean: no name and no file field
    holds a quote, and no name, file field or code holds a newline, whatever
    the search output is. *)
Theorem parsed_fields_clean (out : str) :
  Forall (fun c =>
            lacks quote (chunk_name c) = true
            /\ lacks quote (chunk_file c) = true
            /\ lacks 10%N (chunk_name c) = true
            /\ lacks 10%N (chunk_file c) = true
            /\ lacks 10%N (chunk_code c) = true)
         (parse_search_output out).
Proof.
  pose proof (parse_lines_provenance (lines_of out)) as H.
  pose proof (split_char_parts_lack_sep 10%N out) as Hlines.
  fold (lines_of out) in Hlines. rewrite Forall_forall in Hlines.
  revert H. apply Forall_impl.
  intros c (header & body & Hh & Hb & _ & _ & ->).
  destruct (header_chunk_clean header (Hlines header Hh))
    as (H1 & H2 & H3 & H4).
  cbn [with_code chunk_name chunk_file chunk_code].
  repeat split; try assumption.
  apply lacks_skipn. apply Hlines. exact Hb.
Qed.

(** ** Removing duplicates *)

Lemma fromkeys_new_keys (l keys : list str) :
  fromkeys keys l = keys ++ new_keys keys l.
Proof.
  revert keys; induction l as [|k rest IH]; intros keys;
    cbn [fromkeys new_keys].
  - rewrite app_nil_r. reflexivity.
  - destruct (existsb (str_eqb k) keys); rewrite IH; [reflexivity|].
    rewrite <- app_assoc. reflexivity.
Qed.

Lemma str_eqb_refl (a : str) : str_eqb a a = true.
Proof. apply str_eqb_eq. reflexivity. Qed.

Lemma str_eqb_neq (a b : str) : a <> b -> str_eqb a b = false.
Proof.
  intros H. destruct (str_eqb a b) eqn:E; [|reflexivity].
  apply str_eqb_eq in E. contradiction.
Qed.

Lemma str_eq_dec (a b : str) : a = b \/ a <> b.
Proof.
  destruct (str_eqb a b) eqn:E.
  - left. apply str_eqb_eq. exact E.
  - right. intros ->. rewrite str_eqb_refl in E. discriminate E.
Qed.

Lemma new_keys_seen (l seen : list str) (x : str) :
  new_keys (x :: seen) l
  = new_keys seen (filter (fun y => negb (str_eqb y x)) l).
Proof.
  revert seen; induction l as [|k rest IH]; intros seen;
    cbn [new_keys filter existsb]; [reflexivity|].
  destruct (str_eq_dec k x) as [->|Hne].
  - rewrite str_eqb_refl. cbn [orb negb]. apply IH.
  - rewrite (str_eqb_neq k x Hne). cbn [orb negb new_keys].
    destruct (existsb (str_eqb k) seen); [apply IH|].
    f_equal. apply (IH (seen ++ [k])).
Qed.

(** X10: removing duplicates keeps the first occurrence of every key, in
    order: the result of [x :: l] is [x] followed by the result of [l]
    without its copies of [x]; the result has no duplicates and the elements
    of the list, and removing duplicates twice changes nothing more. *)
Theorem dict_fromkeys_first_occurrences (l : list str) :
  dict_fromkeys [] = []
  /\ (forall x,
        dict_fromkeys (x :: l)
        = x :: dict_fromkeys (filter (fun y => negb (str_eqb y x)) l))
  /\ NoDup (dict_fromkeys l)
  /\ (forall x, In x (dict_fromkeys l) <-> In x l)
  /\ dict_fromkeys (dict_fromkeys l) = dict_fromkeys l.
Proof.
  destruct (dict_fromkeys_spec l) as (Hnodup & Hin & _).
  split; [reflexivity|]. split.
  - intros x. unfold dict_fromkeys. cbn [fromkeys existsb app].
    rewrite !fromkeys_new_keys. cbn [app]. rewrite new_keys_seen.
    reflexivity.
  - split; [exact Hnodup|]. split; [exact Hin|].
    apply dict_fromkeys_spec. exact Hnodup.
Qed.

(** ** More on the candidate files *)

Lemma files_of_groups_nil (cli voice llm index : bool) :
  files_of_groups cli voice llm index = [] ->
  cli = false /\ voice = false /\ llm = false /\ index = false.
Proof.
  destruct cli, voice, llm, index; intros H;
    first [discriminate H|repeat split].
Qed.

Lemma files_of_groups_incl (c v l i c' v' l' i' : bool) :
  (c = true -> c' = true) -> (v = true -> v' = true) ->
  (l = true -> l' = true) -> (i = true -> i' = true) ->
  incl (files_of_groups c v l i) (files_of_groups c' v' l' i').
Proof.
  intros Hc Hv Hl Hi. unfold files_of_groups.
  repeat apply incl_app_app.
  - destruct c; [rewrite Hc by reflexivity; apply incl_refl|apply incl_nil_l].
  - destruct v; [rewrite Hv by reflexivity; apply incl_refl|apply incl_nil_l].
  - destruct l; [rewrite Hl by reflexivity; apply incl_refl|apply incl_nil_l].
  - destruct i; [rewrite Hi by reflexivity; apply incl_refl|apply incl_nil_l].
Qed.

Lemma files_of_groups_known (c v l i : bool) :
  incl (files_of_groups c v l i)
    (cli_files ++ voice_files ++ llm_files ++ index_files).
Proof.
  apply (files_of_groups_incl c v l i true true true true); reflexivity.
Qed.

(** X11: the naive strategy always has candidates: for every query the
    list is not empty, has at most eight entries, and names only files of
    the four groups and of the default list. *)
Theorem relevant_files_nonempty (query : str) :
  relevant_files query <> []
  /\ (length (relevant_files query) <= 8)%nat
  /\ incl (relevant_files query) known_files.
Proof.
  rewrite relevant_files_groups. cbv zeta.
  generalize (any_word_in cli_words (lower query))
    (any_word_in voice_words (lower query))
    (any_word_in llm_words (lower query))
    (any_word_in index_words (lower query)).
  intros c v l i.
  pose proof (files_of_groups_known c v l i) as Hknown.
  assert (length (files_of_groups c v l i) <= 8)%nat as Hlen.
  { destruct c, v, l, i; cbn; lia. }
  destruct (files_of_groups c v l i) as [|f files] eqn:E.
  - split; [discriminate|]. split; [cbn; lia|].
    unfold known_files. rewrite !app_assoc. apply incl_appr, incl_refl.
  - split; [discriminate|]. split; [exact Hlen|].
    unfold known_files. intros x Hx. apply Hknown in Hx.
    rewrite !in_app_iff in *. tauto.
Qed.

Lemma lower_app (a b : str) : lower (a ++ b) = lower a ++ lower b.
Proof. apply flat_map_app. Qed.

Lemma contains_extended (word s a b : str) :
  contains word s = true -> contains word (a ++ s ++ b) = true.
Proof.
  rewrite !contains_occurs. intros (x & y & ->).
  exists (a ++ x), (y ++ b). rewrite <- !app_assoc. reflexivity.
Qed.

Lemma any_word_in_extended (words : list str) (query a b : str) :
  any_word_in words (lower query) = true ->
  any_word_in words (lower (a ++ query ++ b)) = true.
Proof.
  unfold any_word_in. rewrite !existsb_exists, !lower_app.
  intros (word & Hin & H). exists word. split; [exact Hin|].
  apply contains_extended. exact H.
Qed.

(** X13: text added around a query that matches some keyword group never
    removes a candidate: the candidates of the query are among those of the
    longer query. *)
Theorem relevant_files_extended (query before after : str) :
  (exists word, In word all_words /\ occurs word (lower query)) ->
  incl (relevant_files query) (relevant_files (before ++ query ++ after)).
Proof.
  intros (word & Hin & Hocc).
  rewrite !relevant_files_groups. cbv zeta.
  pose proof (any_word_in_extended cli_words query before after) as Hc.
  pose proof (any_word_in_extended voice_words query before after) as Hv.
  pose proof (any_word_in_extended llm_words query before after) as Hl.
  pose proof (any_word_in_extended index_words query before after) as Hi.
  pose proof (files_of_groups_incl _ _ _ _ _ _ _ _ Hc Hv Hl Hi) as Hincl.
  assert (files_of_groups (any_word_in cli_words (lower query))
            (any_word_in voice_words (lower query))
            (any_word_in llm_words (lower query))
            (any_word_in index_words (lower query)) <> []) as Hne.
  { intros E. apply files_of_groups_nil in E.
    destruct E as (Ec & Ev & El & Ei).
    apply any_word_in_not_matches in Ec, Ev, El, Ei.
    unfold all_words in Hin. rewrite !in_app_iff in Hin.
    destruct Hin as [H|[H|[H|H]]];
      [apply Ec|apply Ev|apply El|apply Ei]; exists word; auto. }
  destruct (files_of_groups (any_word_in cli_words (lower query)) _ _ _)
    as [|f files] eqn:E; [contradiction|].
  destruct (files_of_groups
              (any_word_in cli_words (lower (before ++ query ++ after)))
              _ _ _) as [|f' files'] eqn:E'.
  - exfalso. apply (Hincl f). left. reflexivity.
  - exact Hincl.
Qed.

(** The instance of X13: "the cli" inside "search the cli index". *)
Lemma relevant_files_extended_cli :
  incl (relevant_files (py "the cli"))
    (relevant_files (py "search " ++ py "the cli" ++ py " index")).
Proof.
  apply relevant_files_extended.
  exists (py "cli"). split.
  - left. reflexivity.
  - apply contains_occurs. reflexivity.
Defined.

(** ** File gathering, list by list *)

(** X14: gathering the files of two lists of candidates, one after the
    other, gives the entries of the first list followed by those of the
    second, and likewise the printed lines; a candidate that is missing or
    unreadable adds no entry and one line. *)
Theorem get_file_contents_app (w : world) (paths1 paths2 : list str) :
  get_file_contents w (paths1 ++ paths2)
  = (fst (get_file_contents w paths1) ++ fst (get_file_contents w paths2),
     snd (get_file_contents w paths1) ++ snd (get_file_contents w paths2))
  /\ (forall file_path,
        readable w file_path = false ->
        fst (get_file_contents w (paths1 ++ file_path :: paths2))
        = fst (get_file_contents w (paths1 ++ paths2))
        /\ length (snd (get_file_contents w (paths1 ++ file_path :: paths2)))
           = S (length (snd (get_file_contents w (paths1 ++ paths2))))).
Proof.
  rewrite !get_file_contents_eq, !flat_map_app. cbn [fst snd].
  split; [reflexivity|].
  intros file_path Hp. rewrite !get_file_contents_eq, !flat_map_app.
  cbn [fst snd flat_map]. unfold readable in Hp.
  unfold entry_of at 2, notice_of at 2.
  destruct (read_file w file_path); [|discriminate Hp|];
    cbn [app]; rewrite !length_app; cbn [length]; split;
    first [reflexivity|lia].
Qed.

(** The instance of X14 on a machine without the files. *)
Lemma get_file_contents_app_bare :
  fst (get_file_contents bare_world ([] ++ py "README.md" :: [])) = []
  /\ length (snd (get_file_contents bare_world ([] ++ py "README.md" :: [])))
     = 1%nat.
Proof.
  destruct (get_file_contents_app bare_world [] []) as [_ H].
  apply (H (py "README.md")). reflexivity.
Defined.

(** ** More on the comparison and the run *)

(** X15: equal costs are reported as a regression: for a cost [n > 0] on
    both sides the comparison prints savings of 0 tokens with the percentage
    +0.0, and the line of the regression with 0 more tokens; no efficiency
    ratio is printed. *)
Theorem compare_results_tie (n : Z) :
  (0 < n)%Z ->
  compare_results n n
  = ([RagApproachTokens n; NaiveApproachTokens n;
      TokenSavings 0 (S754_zero false); RagUsesMore 0], None).
Proof.
  intros Hn. rewrite (compare_results_complete n n Hn Hn).
  unfold complete_report. rewrite Z.sub_diag.
  destruct n as [|p|p]; try lia. reflexivity.
Qed.

(** The instance of X15 at 250 tokens on both sides. *)
Lemma compare_results_tie_250 :
  compare_results 250 250
  = ([RagApproachTokens 250; NaiveApproachTokens 250;
      TokenSavings 0 (S754_zero false); RagUsesMore 0], None).
Proof. apply compare_results_tie. lia. Defined.

Lemma complete_report_lines (rag_tokens naive_tokens : Z) (o : output) :
  In o (complete_report rag_tokens naive_tokens) ->
  o = RagApproachTokens rag_tokens \/ o = NaiveApproachTokens naive_tokens
  \/ (exists p, o = TokenSavings (naive_tokens - rag_tokens) p)
  \/ ((0 < naive_tokens - rag_tokens)%Z
      /\ (o = RagSaves (naive_tokens - rag_tokens)
          \/ exists e, o = RagEfficiency e))
  \/ ((naive_tokens - rag_tokens <= 0)%Z
      /\ o = RagUsesMore (Z.abs (naive_tokens - rag_tokens))).
Proof.
  unfold complete_report.
  destruct (Z.ltb_spec 0 (naive_tokens - rag_tokens)) as [Hs|Hs];
    cbn [app In]; intros H; decompose [or] H; subst; eauto 10;
    contradiction.
Qed.

(** X16: a run with one argument prints either the complete comparison or
    the incomplete-comparison line, never both; and within a complete
    comparison either the win (with its ratio) or the regression, never
    both. *)
Theorem main_comparison_exclusive (w : world) (argv0 query : str) :
  let printed := snd (main w [argv0; query]) in
  ((exists s p, In (TokenSavings s p) printed)
   <-> ~ In ComparisonIncomplete printed)
  /\ (forall s m, In (RagSaves s) printed -> In (RagUsesMore m) printed ->
                  False)
  /\ (forall e, In (RagEfficiency e) printed ->
                exists s, (0 < s)%Z /\ In (RagSaves s) printed).
Proof.
  cbv zeta.
  assert (forall o,
            match o with
            | TokenSavings _ _ | RagSaves _ | RagUsesMore _
            | RagEfficiency _ | ComparisonIncomplete => True
            | _ => False
            end ->
            (In o (snd (main w [argv0; query]))
             <-> In o (fst (compare_results
                              (fst (fst (benchmark_rag_approach w query)))
                              (fst (fst (benchmark_naive_approach w query)))))))
    as Hmain.
  { intros o Ho. split; [|apply comparison_in_main].
    intros H. apply main_line_origin in H. cbn [In] in H.
    destruct o; try contradiction;
      decompose [or] H; try discriminate; try contradiction; assumption. }
  destruct (compare_results_cases
              (fst (fst (benchmark_rag_approach w query)))
              (fst (fst (benchmark_naive_approach w query))))
    as [(Hr & Hn & E)|[Hfail E]]; rewrite E in Hmain; cbn [fst] in Hmain.
  - split; [|split].
    + split.
      * intros _ Hinc. apply (Hmain ComparisonIncomplete I) in Hinc.
        revert Hinc. apply complete_report_not_incomplete.
      * intros _. eexists _, _. apply (Hmain (TokenSavings _ _) I).
        unfold complete_report. cbn [app In]. right. right. left.
        reflexivity.
    + intros s m Hs Hm. apply (Hmain (RagSaves s) I) in Hs.
      apply (Hmain (RagUsesMore m) I) in Hm.
      apply complete_report_lines in Hs, Hm.
      decompose [or and ex] Hs; try discriminate.
      decompose [or and ex] Hm; try discriminate. lia.
    + intros e He. apply (Hmain (RagEfficiency e) I) in He.
      apply complete_report_lines in He.
      decompose [or and ex] He; try discriminate.
      eexists. split; [eassumption|]. apply (Hmain (RagSaves _) I).
      unfold complete_report.
      destruct (Z.ltb_spec 0
                  (fst (fst (benchmark_naive_approach w query))
                   - fst (fst (benchmark_rag_approach w query))));
        [|lia].
      cbn [app In]. auto 6.
  - split; [|split].
    + split.
      * intros (s & p & H). apply (Hmain (TokenSavings s p) I) in H.
        destruct H as [H|[]]. discriminate H.
      * intros H. exfalso. apply H.
        apply (Hmain ComparisonIncomplete I). left. reflexivity.
    + intros s m Hs _. apply (Hmain (RagSaves s) I) in Hs.
      destruct Hs as [H|[]]. discriminate H.
    + intros e He. apply (Hmain (RagEfficiency e) I) in He.
      destruct He as [H|[]]. discriminate H.
Qed.

Lemma report_line_origin (w : world) (query : str) (o : output) :
  In o (report_of w query) ->
  strategy_line o = true
  \/ In o [Rule; Title; QueryLine query; Blank; ComparisonResults;
           NoteTokenization; NoteTiktoken; NoteSimilar]
  \/ In o (fst (compare_results
                  (fst (fst (benchmark_rag_approach w query)))
                  (fst (fst (benchmark_naive_approach w query))))).
Proof.
  pose proof (rag_prints_strategy_lines w query) as Hrag.
  pose proof (naive_prints_strategy_lines w query) as Hnaive.
  rewrite forallb_forall in Hrag, Hnaive.
  unfold report_of. rewrite !in_app_iff. cbn [In].
  specialize (Hrag o). specialize (Hnaive o). tauto.
Qed.

Lemma report_has_no_saved_line (w : world) (query : str) (o : output) :
  In o (report_of w query) -> saved_line o = false.
Proof.
  intros H. apply report_line_origin in H.
  destruct H as [H|[H|H]].
  - destruct o; try reflexivity; discriminate H.
  - cbn [In] in H. decompose [or] H; subst; try reflexivity; contradiction.
  - destruct (compare_results_cases
                (fst (fst (benchmark_rag_approach w query)))
                (fst (fst (benchmark_naive_approach w query))))
      as [(_ & _ & E)|[_ E]]; rewrite E in H; cbn [fst In] in H.
    + apply complete_report_lines in H.
      decompose [or and ex] H; subst; reflexivity.
    + destruct H as [<-|[]]. reflexivity.
Qed.

(** X18: the saving of the contexts never prints a line when it is off, and
    when it is on it writes the naive context only after the retrieval
    context was saved: the line of the naive file is printed only after the
    line of the retrieval file. *)
Theorem main_saved_lines (w : world) (argv0 query : str) :
  (save_contexts w = false ->
   forall o, In o (snd (main w [argv0; query])) -> saved_line o = false)
  /\ (forall name,
        In (NaiveContextSavedTo name) (snd (main w [argv0; query])) ->
        save_contexts w = true
        /\ exists rag_name,
             write_temp w (py "_rag_context.txt")
               (snd (fst (benchmark_rag_approach w query)))
             = TempSaved rag_name
             /\ In (RagContextSavedTo rag_name)
                  (snd (main w [argv0; query]))).
Proof.
  pose proof (report_has_no_saved_line w query) as Hreport.
  rewrite main_single_argument. split.
  - intros ->. cbn [snd]. exact Hreport.
  - intros name. destruct (save_contexts w); cbn [snd].
    + rewrite in_app_iff. intros [H|H].
      * apply Hreport in H. discriminate H.
      * split; [reflexivity|]. revert H. unfold save_context_files.
        destruct (write_temp w (py "_rag_context.txt")
                    (snd (fst (benchmark_rag_approach w query))))
          as [rag_name|e|n e]; cbn [snd In].
        -- intros H. exists rag_name. split; [reflexivity|].
           apply in_or_app. right.
           destruct (write_temp w (py "_naive_context.txt")
                       (snd (fst (benchmark_naive_approach w query))));
             left; reflexivity.
        -- intros [].
        -- intros [H|[]]. discriminate H.
    + intros H. apply Hreport in H. discriminate H.
Qed.

(** The instance of X18 on a machine with the saving off. *)
Lemma main_saved_lines_bare :
  forallb (fun o => negb (saved_line o))
    (snd (main bare_world [py "benchmark_rag.py"; py "add a command"]))
  = true.
Proof.
  destruct (main_saved_lines bare_world (py "benchmark_rag.py")
              (py "add a command")) as [Hoff _].
  apply forallb_forall. intros o Ho. apply negb_true_iff.
  apply (Hoff eq_refl o Ho).
Defined.

(** ** From the search output to the report *)

Lemma rag_lines_in_main (w : world) (argv0 query : str) (o : output) :
  In o (snd (benchmark_rag_approach w query)) ->
  In o (snd (main w [argv0; query])).
Proof.
  intros H. rewrite main_single_argument.
  assert (In o (report_of w query)) as Hreport.
  { unfold report_of. rewrite !in_app_iff. tauto. }
  destruct (save_contexts w); cbn [snd]; [apply in_or_app; left|];
    exact Hreport.
Qed.

Lemma run_indexer_search_success (w : world) (query : str) (top_k : Z)
  (p : CompletedProcess) :
  cargo_run_indexer w query top_k = Completed p -> returncode p = 0%Z ->
  run_indexer_search w query top_k = (parse_search_output (stdout p), []).
Proof.
  intros Hrun Hcode. unfold run_indexer_search. rewrite Hrun, Hcode.
  reflexivity.
Qed.

(** X19: when the search succeeds and prints a block of well-formed entries
    (mixed or not with lines of neither shape) holding at least one entry,
    the chunks are those of the entries, the retrieval cost is 4 plus the
    cost of the query plus the costs of the chunks, and the run prints the
    number of chunks and a complete comparison, not the incomplete one. *)
Theorem main_on_well_formed_block (w : world) (argv0 query : str)
  (p : CompletedProcess) (items : list item) :
  cargo_run_indexer w query 5 = Completed p -> returncode p = 0%Z ->
  stdout p = block_text items ->
  Forall (fun i => item_ok i = true) items ->
  flat_map item_fragments items <> [] ->
  let chunks := flat_map item_fragments items in
  fst (run_indexer_search w query 5) = chunks
  /\ fst (fst (benchmark_rag_approach w query))
     = (4 + count_tokens query + sum_Z (map chunk_cost chunks))%Z
  /\ In (RagFound (Z.of_nat (length chunks))) (snd (main w [argv0; query]))
  /\ ~ In ComparisonIncomplete (snd (main w [argv0; query]))
  /\ exists savings percent,
       In (TokenSavings savings percent) (snd (main w [argv0; query])).
Proof.
  intros Hrun Hcode Hout Hitems Hne chunks.
  pose proof (run_indexer_search_success w query 5 p Hrun Hcode) as Hsearch.
  rewrite Hout, (parse_block_text items Hitems) in Hsearch.
  fold chunks in Hsearch, Hne.
  assert (benchmark_rag_approach w query
          = ((count_tokens (rag_context_of query chunks),
              rag_context_of query chunks),
             [RagSearching query] ++ []
             ++ [RagFound (Z.of_nat (length chunks));
                 RagContextTokens
                   (count_tokens (rag_context_of query chunks))]))
    as Hrag.
  { unfold benchmark_rag_approach. rewrite Hsearch.
    destruct chunks; [contradiction|reflexivity]. }
  assert ((0 < fst (fst (benchmark_rag_approach w query)))%Z) as Hpos.
  { rewrite Hrag. cbn [fst].
    pose proof (rag_context_cost_ge query chunks). lia. }
  split; [rewrite Hsearch; reflexivity|].
  split.
  { rewrite Hrag. cbn [fst].
    rewrite rag_context_of_eq, count_tokens_rag_header,
      count_tokens_chunk_blocks. reflexivity. }
  split.
  { apply rag_lines_in_main. rewrite Hrag. cbn [snd app In]. auto. }
  pose proof (naive_tokens_ge_4 w query) as Hnaive.
  split.
  { rewrite main_prints_incomplete, incomplete_in_comparison. lia. }
  eexists _, _. apply comparison_in_main.
  rewrite compare_results_complete by lia. cbn [fst].
  unfold complete_report. cbn [app In]. right. right. left. reflexivity.
Qed.

(** The instance of X19 on the sample block. *)
Lemma main_on_sample_block :
  In (RagFound 5)
    (snd (main sample_world [py "benchmark_rag.py"; py "add a command"]))
  /\ ~ In ComparisonIncomplete
         (snd (main sample_world [py "benchmark_rag.py"; py "add a command"])).
Proof.
  assert (Forall (fun i => item_ok i = true) (map Ranked sample_entries))
    as Hok.
  { repeat constructor. }
  assert (flat_map item_fragments (map Ranked sample_entries) <> []) as Hne.
  { discriminate. }
  destruct (main_on_well_formed_block sample_world (py "benchmark_rag.py")
              (py "add a command") _ (map Ranked sample_entries)
              eq_refl eq_refl eq_refl Hok Hne)
    as (_ & _ & Hfound & Hcomplete & _).
  split; [exact Hfound|exact Hcomplete].
Defined.

(** ** The case of ASCII letters *)

Lemma lower_char_ascii_lower (c : char) :
  lower_char (ascii_lower_char c) = lower_char c.
Proof.
  unfold ascii_lower_char.
  destruct ((65 <=? c) && (c <=? 90))%N eqn:Hcap; [|reflexivity].
  apply andb_true_iff in Hcap. destruct Hcap as [H65 H90].
  apply N.leb_le in H65, H90.
  unfold lower_char.
  destruct (N.leb_spec 65 (c + 32)) as [_|]; [|lia].
  destruct (N.leb_spec (c + 32) 90) as [|_]; [lia|].
  destruct (N.leb_spec 65 c) as [_|]; [|lia].
  destruct (N.leb_spec c 90) as [_|]; [|lia]. cbn [andb].
  destruct (N.eqb_spec (c + 32) 304) as [|_]; [lia|].
  destruct (N.eqb_spec (c + 32) 8490) as [|_]; [lia|]. reflexivity.
Qed.

Lemma lower_ascii_lower (s : str) : lower (ascii_lower s) = lower s.
Proof.
  induction s as [|c s IH]; [reflexivity|].
  change (lower (ascii_lower (c :: s)))
    with (lower_char (ascii_lower_char c) ++ lower (ascii_lower s)).
  rewrite lower_char_ascii_lower, IH. reflexivity.
Qed.

(** X12: the candidates do not depend on the case of the ASCII letters of
    the query: two queries that are the same text once their ASCII capitals
    are lowered have the same candidates. *)
Theorem relevant_files_ascii_case (query query' : str) :
  ascii_lower query = ascii_lower query' ->
  relevant_files query = relevant_files query'.
Proof.
  intros H. rewrite !relevant_files_groups. cbv zeta.
  rewrite <- (lower_ascii_lower query), <- (lower_ascii_lower query'), H.
  reflexivity.
Qed.

(** The instance of X12 at "Add a COMMAND" and "add a Command". *)
Lemma relevant_files_ascii_case_command :
  relevant_files (py "Add a COMMAND") = relevant_files (py "add a Command").
Proof.
  apply (relevant_files_ascii_case (py "Add a COMMAND") (py "add a Command")).
  reflexivity.
Defined.

(** ** Names and code of well-formed entries *)

Lemma fragments_names_and_code (items : list item) :
  map chunk_name (flat_map item_fragments items)
  = map entry_name (item_entries items)
  /\ map chunk_code (flat_map item_fragments items)
     = map entry_code (item_entries items).
Proof.
  unfold item_entries.
  induction items as [|i items [IHn IHc]]; [split; reflexivity|].
  cbn [flat_map]. rewrite !map_app, IHn, IHc.
  destruct i; split; reflexivity.
Qed.

(** X20: from a block of well-formed entries (each a header line with a rank
    "1." to "5.", a quoted name, "Score:" and "in ", followed by a
    "Lines ...: <code>" line), mixed or not with lines of neither shape, the
    parser returns one chunk per entry, in the order of the text, with the
    name between the quotes and the code after the first ": " of the body
    line; and reordering the entries reorders the chunks. *)
Theorem parse_well_formed_names_and_code (items : list item) :
  Forall (fun i => item_ok i = true) items ->
  length (parse_search_output (block_text items))
  = length (item_entries items)
  /\ map chunk_name (parse_search_output (block_text items))
     = map entry_name (item_entries items)
  /\ map chunk_code (parse_search_output (block_text items))
     = map entry_code (item_entries items)
  /\ (forall items',
        Permutation items items' ->
        Permutation (parse_search_output (block_text items))
          (parse_search_output (block_text items'))).
Proof.
  intros H. rewrite (parse_block_text items H).
  destruct (fragments_names_and_code items) as [Hn Hc].
  split; [|split; [exact Hn|split; [exact Hc|]]].
  - rewrite <- (length_map chunk_name), Hn. apply length_map.
  - intros items' Hperm.
    assert (Forall (fun i => item_ok i = true) items') as H'.
    { rewrite Forall_forall in *. intros i Hi. apply H.
      apply (Permutation_in i (Permutation_sym Hperm)). exact Hi. }
    rewrite (parse_block_text items' H').
    apply flat_map_Permutation. exact Hperm.
Qed.

(** The instance of X20 on the sample block. *)
Lemma parse_well_formed_names_and_code_sample :
  length (parse_search_output (block_text (map Ranked sample_entries)))
  = 5%nat
  /\ map chunk_name
       (parse_search_output (block_text (map Ranked sample_entries)))
     = [py "main"; py "Cli"; py "chunk_file"; py "embed"; py "search"].
Proof.
  assert (Forall (fun i => item_ok i = true) (map Ranked sample_entries))
    as Hok.
  { repeat constructor. }
  destruct (parse_well_formed_names_and_code (map Ranked sample_entries) Hok)
    as (Hlen & Hnames & _).
  split; [exact Hlen|exact Hnames].
Defined.

(** The instance of X22: a banner line between a header and its body. *)
Lemma parse_search_output_stray_banner :
  parse_search_output
    (py "1. 'main' (Score: 0.91) in src/main.rs" ++ nl
     ++ py "Found 5 results" ++ nl ++ py "   Lines 1-20: fn main() {")
  = parse_search_output
      (py "1. 'main' (Score: 0.91) in src/main.rs" ++ nl
       ++ py "   Lines 1-20: fn main() {").
Proof.
  apply (parse_search_output_stray
           (py "1. 'main' (Score: 0.91) in src/main.rs")
           (py "Found 5 results") (py "   Lines 1-20: fn main() {"));
    reflexivity.
Defined.
